(** * A shallow embedding of devtools/pep8/pep8.py (version 0.2.0)

    Strings of the Python 2 program are lists of ASCII characters; Python
    integers are [Z]; Python exceptions are the constructors of [exn],
    raised through a small state/exception monad over the [Checker]
    instance and the standard output stream. *)

From Stdlib Require Import Ascii String List ZArith Lia Bool Sorted.
Import ListNotations.
Open Scope Z_scope.
Open Scope list_scope.

Abbreviation str := (list ascii).

(** String literal of the source, as a list of characters. *)
Definition lit (s : string) : str := list_ascii_of_string s.

(** ** Python string primitives *)

Definition chr (n : nat) : ascii := ascii_of_nat n.

(** [str.isspace] characters of Python 2: space, \t \n \x0b \x0c \r. *)
Definition is_ws (c : ascii) : bool :=
  let n := nat_of_ascii c in
  (n =? 32)%nat || ((9 <=? n)%nat && (n <=? 13)%nat).

(** [s.rstrip(chars)] for a character predicate. *)
Fixpoint rstrip_by (p : ascii -> bool) (s : str) : str :=
  match s with
  | [] => []
  | c :: r =>
      match rstrip_by p r with
      | [] => if p c then [] else [c]
      | r' => c :: r'
      end
  end.

(** [s.lstrip(chars)] for a character predicate. *)
Fixpoint lstrip_by (p : ascii -> bool) (s : str) : str :=
  match s with
  | [] => []
  | c :: r => if p c then lstrip_by p r else s
  end.

Definition rstrip (s : str) : str := rstrip_by is_ws s.
Definition lstrip (s : str) : str := lstrip_by is_ws s.
Definition rstrip_char (c : ascii) (s : str) : str :=
  rstrip_by (fun d => Ascii.eqb d c) s.

Fixpoint startswith (s p : str) : bool :=
  match p, s with
  | [], _ => true
  | c :: p', d :: s' => Ascii.eqb c d && startswith s' p'
  | _ :: _, [] => false
  end.

Definition endswith (s p : str) : bool := startswith (rev s) (rev p).

Definition len (s : str) : Z := Z.of_nat (length s).

(** Python slice bound: a negative index counts from the end, and the
    result is clamped to [0, len s]. *)
Definition py_bound (s : str) (i : Z) : nat :=
  Z.to_nat (if i <? 0 then len s + i else i).

(** [s[:i]] and [s[i:]]. *)
Definition py_take (i : Z) (s : str) : str := firstn (py_bound s i) s.
Definition py_drop (i : Z) (s : str) : str := skipn (py_bound s i) s.

(** [s[i]]; [None] is the [IndexError] of an index out of range. *)
Definition py_index (s : str) (i : Z) : option ascii :=
  let j := if i <? 0 then len s + i else i in
  if j <? 0 then None else nth_error s (Z.to_nat j).

(** ['x' * n]: a non-positive count gives the empty string. *)
Definition repeat_x (n : Z) : str := repeat "x"%char (Z.to_nat n).

(** [s.find(sub)] from index [i] on, for a non-empty [sub]. *)
Fixpoint find_aux (sub s : str) (i : Z) : Z :=
  if startswith s sub then i
  else match s with
       | [] => -1
       | _ :: t => find_aux sub t (i + 1)
       end.

Definition find_from (s sub : str) (start : Z) : Z :=
  if len s <? start then -1
  else find_aux sub (py_drop start s) (Z.of_nat (py_bound s start)).

Definition find (s sub : str) : Z := find_from s sub 0.

(** [s.rfind(sub)] for a one-character [sub]. *)
Definition rfind_char (s : str) (c : ascii) : Z :=
  let fix go (l : str) (i best : Z) : Z :=
    match l with
    | [] => best
    | d :: t => go t (i + 1) (if Ascii.eqb d c then i else best)
    end in
  go s 0 (-1).

(** [str(n)] and ["%d" % n] for an integer. *)
Fixpoint digits_aux (fuel : nat) (n : N) (acc : str) : str :=
  match fuel with
  | O => acc
  | S f =>
      let d := ascii_of_N (48 + N.modulo n 10) in
      if (n <? 10)%N then d :: acc else digits_aux f (N.div n 10) (d :: acc)
  end.

Definition z_str (z : Z) : str :=
  if z <? 0 then "-"%char :: digits_aux 64 (Z.to_N (- z)) []
  else digits_aux 64 (Z.to_N z) [].

(** The double-quote character. *)
Definition dq : ascii := chr 34.

(** ** Tokens, as produced by the standard [tokenize] module *)

Inductive tok_type :=
  | NAME | NUMBER | STRING | OP | COMMENT | NL | NEWLINE
  | INDENT | DEDENT | ENDMARKER.

Definition tok_type_eqb (a b : tok_type) : bool :=
  match a, b with
  | NAME, NAME | NUMBER, NUMBER | STRING, STRING | OP, OP
  | COMMENT, COMMENT | NL, NL | NEWLINE, NEWLINE | INDENT, INDENT
  | DEDENT, DEDENT | ENDMARKER, ENDMARKER => true
  | _, _ => false
  end.

(** [(token_type, token, token_start, token_end, token_line)]; positions
    are (row, column) pairs, rows counted from 1. *)
Record token := Tok {
  tok_kind : tok_type;
  tok_str : str;
  tok_start : Z * Z;
  tok_end : Z * Z;
  tok_line : str
}.

(** ** [mute_line] *)

(** [token_start[0] <= line_number <= token_end[0]]. *)
Definition overlaps (line_number : Z) (t : token) : bool :=
  (fst (tok_start t) <=? line_number) && (line_number <=? fst (tok_end t)).

(** [string_start] and [string_end] of a string token on this line. *)
Definition string_span (line_number : Z) (line : str) (t : token) : Z * Z :=
  let '(sr, sc) := tok_start t in
  let '(er, ec) := tok_end t in
  let triple := startswith (tok_str t) [dq; dq; dq]
                || startswith (tok_str t) (lit "'''") in
  let string_start := if triple then sc + 1 + 2 else sc + 1 in
  let string_end := if triple then ec - 1 - 2 else ec - 1 in
  let string_start := if sr <? line_number then 0 else string_start in
  let string_end := if line_number <? er then len line else string_end in
  (string_start, string_end).

(** One iteration of the loop of [mute_line]. *)
Definition mute_token (line_number : Z) (line : str) (t : token) : str :=
  if overlaps line_number t then
    match tok_kind t with
    | COMMENT => rstrip (py_take (snd (tok_start t)) line)
    | STRING =>
        let '(string_start, string_end) := string_span line_number line t in
        py_take string_start line ++ repeat_x (string_end - string_start)
          ++ py_drop string_end line
    | _ => line
    end
  else line.

Definition mute_line (line : str) (line_number : Z) (tokens : list token) : str :=
  fold_left (mute_token line_number) tokens line.

(** ** The logical-line builder of [Checker.check_logical] *)

(** [range(a, b)]. *)
Definition zrange (a b : Z) : list Z :=
  map (fun k => a + Z.of_nat k) (seq 0 (Z.to_nat (b - a))).

(** [l[i]] on a Python list; [None] is an [IndexError]. *)
Definition list_index {A} (l : list A) (i : Z) : option A :=
  let j := if i <? 0 then Z.of_nat (length l) + i else i in
  if j <? 0 then None else nth_error l (Z.to_nat j).

(** One entry of [mapping]: [(len(logical), line_number, indent)]. *)
Definition seg : Type := (Z * Z * Z)%type.

Definition seg_offset (s : seg) : Z := fst (fst s).
Definition seg_line (s : seg) : Z := snd (fst s).
Definition seg_indent (s : seg) : Z := snd s.

(** One iteration of [for line_number in range(start[0], end[0] + 1)]. *)
Definition build_step (lines : list str) (tokens : list token)
    (acc : list seg * str) (line_number : Z) : option (list seg * str) :=
  let '(mapping, logical) := acc in
  match list_index lines (line_number - 1) with
  | None => None
  | Some raw =>
      let line := rstrip raw in
      let line := mute_line line line_number tokens in
      match line with
      | [] => Some (mapping, logical)
      | _ =>
          let before := len line in
          let line := lstrip line in
          let after := len line in
          let indent := before - after in
          let line := if endswith line (lit "\") then py_take (-1) line else line in
          let logical := if endswith logical (lit ",") then logical ++ lit " "
                         else logical in
          Some (mapping ++ [(len logical, line_number, indent)], logical ++ line)
      end
  end.

Fixpoint build_loop (lines : list str) (tokens : list token)
    (acc : list seg * str) (nums : list Z) : option (list seg * str) :=
  match nums with
  | [] => Some acc
  | n :: rest =>
      match build_step lines tokens acc n with
      | None => None
      | Some acc' => build_loop lines tokens acc' rest
      end
  end.

(** [mapping] and [logical] of [check_logical(start, end, tokens)];
    [None] is the [IndexError] of a row beyond the file. *)
Definition build_logical (lines : list str) (start end_ : Z * Z)
    (tokens : list token) : option (list seg * str) :=
  build_loop lines tokens ([], []) (zrange (fst start) (fst end_ + 1)).

(** The loop [for map_offset, line_number, indent in mapping] that maps a
    logical offset back: it rebinds [original_number], [original_indent]
    and [original_offset] at every entry whose offset is [<= offset]. The
    accumulator holds the bindings (or [None] while unbound). *)
Definition map_step (offset : Z) (acc : option (Z * Z * Z)) (m : seg)
    : option (Z * Z * Z) :=
  let '(map_offset, line_number, indent) := m in
  if map_offset <=? offset then Some (line_number, indent, offset - map_offset)
  else acc.

Definition map_offset_loop (mapping : list seg) (offset : Z)
    (bound : option (Z * Z * Z)) : option (Z * Z * Z) :=
  fold_left (map_step offset) mapping bound.

(** ** Options, the per-file [state] dictionary and the [Checker] *)

(** The global [options] object parsed by [_main]; an empty [testsuite]
    stands for both [None] and [''], which the code treats alike. *)
Record Options := {
  verbose : Z;
  quiet : Z;
  ignore : list str;
  show_source : bool;
  show_pep8 : bool;
  statistics : bool;
  testsuite : str
}.

(** The [state] dictionary: the keys the checks of the module use; [None]
    is an absent key. *)
Record State := {
  st_indent_char : option ascii;
  st_indent_level : option Z;
  st_indent_expect : option bool;
  st_blank_lines : option Z
}.

Definition empty_state : State := Build_State None None None None.

Definition set_indent_char (s : State) (c : ascii) : State :=
  Build_State (Some c) (st_indent_level s) (st_indent_expect s) (st_blank_lines s).
Definition set_indent_level (s : State) (z : Z) : State :=
  Build_State (st_indent_char s) (Some z) (st_indent_expect s) (st_blank_lines s).
Definition set_indent_expect (s : State) (b : bool) : State :=
  Build_State (st_indent_char s) (st_indent_level s) (Some b) (st_blank_lines s).
Definition set_blank_lines (s : State) (z : Z) : State :=
  Build_State (st_indent_char s) (st_indent_level s) (st_indent_expect s) (Some z).

(** Python exceptions the code can raise. *)
Inductive exn :=
  | TokenError
  | AttributeError (name : str)
  | IndexError
  | TypeError
  | UnboundLocalError (name : str).

(** Values a check can receive from [getattr(self, name)]: strings and
    integers, the [state] dictionary (one shared object: a check receiving
    it mutates the checker's own [state]), and any other attribute. *)
Inductive value :=
  | VStr (s : str)
  | VInt (z : Z)
  | VState
  | VOther (name : str).

(** A check function: its arguments, the shared [state], and either an
    exception or its result ([None] or [(offset, text)]) with the updated
    [state]. *)
Definition check_fn : Type :=
  list value -> State -> exn + (option (Z * str) * State).

(** The tuple [(name, function, args)] built by [find_checks]; [doc] is
    the function's [__doc__]. *)
Record descr := Descr {
  d_name : str;
  d_args : list str;
  d_doc : str;
  d_fn : check_fn
}.

(** The attributes of a [Checker] instance; [None] for an attribute not
    yet assigned. *)
Record Checker := {
  filename : str;
  lines : list str;
  physical_checks : list descr;
  logical_checks : list descr;
  line_number : option Z;
  error_count : list (str * Z);
  state : option State;
  physical_line : option str;
  logical_line : option str;
  indent_level : option Z
}.

(** The running program: the current checker and what was printed. *)
Record World := { chk : Checker; out : list str }.

(** State and exception monad; a raised exception keeps the world reached
    so far (what was printed stays printed). *)
Definition M (S A : Type) : Type := S -> S * (exn + A).

Definition ret {S A} (a : A) : M S A := fun w => (w, inr a).
Definition bind {S A B} (m : M S A) (k : A -> M S B) : M S B :=
  fun w => match m w with
           | (w', inl e) => (w', inl e)
           | (w', inr a) => k a w'
           end.
Definition raise {S A} (e : exn) : M S A := fun w => (w, inl e).
Definition get {S} : M S S := fun w => (w, inr w).
Definition put {S} (w : S) : M S unit := fun _ => (w, inr tt).

Notation "x <- c1 ;; c2" := (bind c1 (fun x => c2))
  (at level 61, c1 at next level, right associativity).
Notation "c1 ;; c2" := (bind c1 (fun _ => c2))
  (at level 61, right associativity).

Definition lift_opt {S A} (e : exn) (o : option A) : M S A :=
  match o with Some a => ret a | None => raise e end.

Definition modify_chk (f : Checker -> Checker) : M World unit :=
  fun w => (Build_World (f (chk w)) (out w), inr tt).

(** [print text]. *)
Definition message (text : str) : M World unit :=
  fun w => (Build_World (chk w) (out w ++ [text]), inr tt).

Definition with_line_number (c : Checker) (n : Z) : Checker :=
  Build_Checker (filename c) (lines c) (physical_checks c) (logical_checks c)
    (Some n) (error_count c) (state c) (physical_line c) (logical_line c)
    (indent_level c).
Definition with_error_count (c : Checker) (e : list (str * Z)) : Checker :=
  Build_Checker (filename c) (lines c) (physical_checks c) (logical_checks c)
    (line_number c) e (state c) (physical_line c) (logical_line c)
    (indent_level c).
Definition with_state (c : Checker) (s : State) : Checker :=
  Build_Checker (filename c) (lines c) (physical_checks c) (logical_checks c)
    (line_number c) (error_count c) (Some s) (physical_line c) (logical_line c)
    (indent_level c).
Definition with_physical_line (c : Checker) (l : str) : Checker :=
  Build_Checker (filename c) (lines c) (physical_checks c) (logical_checks c)
    (line_number c) (error_count c) (state c) (Some l) (logical_line c)
    (indent_level c).
Definition with_logical (c : Checker) (l : str) (il : Z) : Checker :=
  Build_Checker (filename c) (lines c) (physical_checks c) (logical_checks c)
    (line_number c) (error_count c) (state c) (physical_line c) (Some l)
    (Some il).

Definition str_eqb (a b : str) : bool :=
  if list_eq_dec ascii_dec a b then true else false.

(** [x in l] for a list of strings. *)
Definition str_mem (x : str) (l : list str) : bool := existsb (str_eqb x) l.

(** ** The checks for physical lines *)

(** [indent_match(line).group(1)]: the leading run of spaces and tabs. *)
Definition tab : ascii := chr 9.

Fixpoint indent_match (s : str) : str :=
  match s with
  | c :: r => if Ascii.eqb c " "%char || Ascii.eqb c tab then c :: indent_match r
              else []
  | [] => []
  end.

Fixpoint first_other (c : ascii) (s : str) (i : Z) : option Z :=
  match s with
  | [] => None
  | d :: r => if Ascii.eqb d c then first_other c r (i + 1) else Some i
  end.

Definition tabs_or_spaces (physical_line : str) (st : State)
    : option (Z * str) * State :=
  let indent := indent_match physical_line in
  match indent with
  | [] => (None, st)
  | c0 :: _ =>
      let '(indent_char, st) :=
        match st_indent_char st with
        | Some c => (c, st)
        | None => (c0, set_indent_char st c0)
        end in
      match first_other indent_char indent 0 with
      | Some offset => (Some (offset, lit "E101 indentation contains mixed spaces and tabs"), st)
      | None => (None, st)
      end
  end.

(** [s.index(c)] when [c in s]. *)
Fixpoint first_index (c : ascii) (s : str) (i : Z) : option Z :=
  match s with
  | [] => None
  | d :: r => if Ascii.eqb d c then Some i else first_index c r (i + 1)
  end.

Definition tabs_obsolete (physical_line : str) : option (Z * str) :=
  let indent := indent_match physical_line in
  match first_index tab indent 0 with
  | Some offset => Some (offset, lit "W191 indentation contains tabs")
  | None => None
  end.

Definition trailing_whitespace (physical_line : str) : option (Z * str) :=
  let physical_line := rstrip_char (chr 10) physical_line in
  let physical_line := rstrip_char (chr 13) physical_line in
  let physical_line := rstrip_char (chr 12) physical_line in
  let stripped := rstrip physical_line in
  if negb (str_eqb physical_line stripped)
  then Some (len stripped, lit "W291 trailing whitespace")
  else None.

Definition maximum_line_length (physical_line : str) : option (Z * str) :=
  let length := len (rstrip physical_line) in
  if 79 <? length
  then Some (79, lit "E501 line too long (" ++ z_str length ++ lit " characters)")
  else None.

(** ** The checks for logical lines *)

Definition indentation (logical_line : str) (st : State) (indent_level : Z)
    : option (Z * str) * State :=
  let line := logical_line in
  match line with
  | [] => (None, st)
  | _ =>
      let previous_level := match st_indent_level st with Some z => z | None => 0 end in
      let indent_expect := match st_indent_expect st with Some b => b | None => false end in
      let st := set_indent_expect st
                  (endswith (rstrip (rstrip_char "#"%char line)) (lit ":")) in
      let indent_char := match st_indent_char st with Some c => c | None => " "%char end in
      let st := set_indent_level st indent_level in
      if Ascii.eqb indent_char " "%char && negb (indent_level mod 4 =? 0)
      then (Some (0, lit "E111 indentation is not a multiple of four"), st)
      else if indent_expect && (indent_level <=? previous_level)
      then (Some (0, lit "E112 expected an indented block"), st)
      else if negb indent_expect && (previous_level <? indent_level)
      then (Some (0, lit "E113 unexpected indentation"), st)
      else (None, st)
  end.

Definition blank_lines (logical_line : str) (st : State) (indent_level : Z)
    : option (Z * str) * State :=
  let line := logical_line in
  let first_line := match st_blank_lines st with None => true | Some _ => false end in
  let count := match st_blank_lines st with Some z => z | None => 0 end in
  let st := match line with
            | [] => set_blank_lines st (count + 1)
            | _ => set_blank_lines st 0
            end in
  let e303 :=
    if 2 <? count
    then (Some (0, lit "E303 too many blank lines (" ++ z_str count ++ lit ")"), st)
    else (None, st) in
  if startswith line (lit "def ") && negb first_line then
    if (0 <? indent_level) && negb (count =? 1)
    then (Some (0, lit "E301 expected 1 blank line, found " ++ z_str count), st)
    else if (indent_level =? 0) && negb (count =? 2)
    then (Some (0, lit "E302 expected 2 blank lines, found " ++ z_str count), st)
    else e303
  else e303.

Definition extraneous_whitespace (logical_line : str) : exn + option (Z * str) :=
  let line := logical_line in
  let fix open_loop (cs : str) : exn + option (Z * str) :=
    match cs with
    | [] => inr None
    | char :: cs' =>
        let found := find line [char; " "%char] in
        if -1 <? found
        then inr (Some (found + 1, lit "E201 whitespace after '" ++ [char] ++ lit "'"))
        else open_loop cs'
    end in
  let fix close_loop (cs : str) : exn + option (Z * str) :=
    match cs with
    | [] => inr None
    | char :: cs' =>
        let found := find line [" "%char; char] in
        if -1 <? found then
          match py_index line (found - 1) with
          | None => inl IndexError
          | Some prev =>
              if negb (Ascii.eqb prev ","%char)
              then inr (Some (found, lit "E202 whitespace before '" ++ [char] ++ lit "'"))
              else close_loop cs'
          end
        else close_loop cs'
    end in
  let fix punct_loop (cs : str) : exn + option (Z * str) :=
    match cs with
    | [] => inr None
    | char :: cs' =>
        let found := find line [" "%char; char] in
        if -1 <? found
        then inr (Some (found, lit "E203 whitespace before '" ++ [char] ++ lit "'"))
        else punct_loop cs'
    end in
  match open_loop (lit "([{") with
  | inr None =>
      match close_loop (lit "}])") with
      | inr None => punct_loop (lit ",;:")
      | r => r
      end
  | r => r
  end.

(** The module's [operators] list. *)
Definition operators : list str :=
  map lit ["+"; "-"; "*"; "/"; "%"; "^"; "&"; "|"; "="; "<"; ">"; ">>"; "<<";
           "+="; "-="; "*="; "/="; "%="; "^="; "&="; "|="; "=="; "<="; ">=";
           ">>="; "<<="; "!="; "<>"; ":"; "in"; "is"; "or"; "not"; "and"]%string.

(** [keyword.iskeyword] of Python 2. *)
Definition kwlist : list str :=
  map lit ["and"; "as"; "assert"; "break"; "class"; "continue"; "def"; "del";
           "elif"; "else"; "except"; "exec"; "finally"; "for"; "from";
           "global"; "if"; "import"; "in"; "is"; "lambda"; "not"; "or";
           "pass"; "print"; "raise"; "return"; "try"; "while"; "with";
           "yield"]%string.

Definition iskeyword (s : str) : bool := str_mem s kwlist.

(** [\w] of the [re] module without the UNICODE or LOCALE flag. *)
Definition is_word (c : ascii) : bool :=
  let n := nat_of_ascii c in
  ((48 <=? n) && (n <=? 57) || (65 <=? n) && (n <=? 90)
   || (97 <=? n) && (n <=? 122) || (n =? 95))%nat.

Fixpoint take_while {A} (p : A -> bool) (l : list A) : list A :=
  match l with
  | [] => []
  | x :: r => if p x then x :: take_while p r else []
  end.

(** [last_token_match(s)], the search of [(\w+|\S)\s*$]: [None] when
    there is no match, else [Some (group(1))]. The leftmost match starts at
    the trailing run of word characters before the trailing whitespace, or
    at the last non-whitespace character when that is not a word
    character. *)
Definition last_token_match (s : str) : option str :=
  match rev (rstrip s) with
  | [] => None
  | c :: r => if is_word c then Some (rev (take_while is_word (c :: r)))
              else Some [c]
  end.

Definition whitespace_before_parameters (logical_line : str)
    : exn + option (Z * str) :=
  let line := logical_line in
  (* The inner [while True] loop; [found] strictly increases and stays
     below [len(line)], so [length line + 1] rounds suffice. *)
  let fix scan (fuel : nat) (char : ascii) (found : Z) : exn + option (Z * str) :=
    match fuel with
    | O => inr None
    | S fuel' =>
        let found := find_from line [" "%char; char] (found + 1) in
        if found =? -1 then inr None
        else match last_token_match (py_take found line) with
             | None => inl (AttributeError (lit "group"))
             | Some before =>
                 if str_mem before operators || str_eqb before (lit ",")
                    || iskeyword before || startswith line (lit "class")
                 then scan fuel' char found
                 else inr (Some (found, lit "E211 whitespace before '" ++ [char] ++ lit "'"))
             end
    end in
  match scan (S (length line)) "("%char (-1) with
  | inr None => scan (S (length line)) "["%char (-1)
  | r => r
  end.

Definition whitespace_around_operator (logical_line : str) : option (Z * str) :=
  let line := logical_line in
  let fix go (ops : list str) : option (Z * str) :=
    match ops with
    | [] => None
    | operator :: ops' =>
        let found := find line (lit "  " ++ operator) in
        if -1 <? found then Some (found, lit "E221 multiple spaces before operator")
        else
          let found := find line (tab :: operator) in
          if -1 <? found then Some (found, lit "E222 tab before operator")
          else go ops'
    end in
  go operators.

Definition imports_on_separate_lines (logical_line : str) : option (Z * str) :=
  let line := logical_line in
  if startswith line (lit "import ") then
    let found := find line (lit ",") in
    if -1 <? found then Some (found, lit "E401 multiple imports on one line") else None
  else None.

(** ** Docstrings of the checks ([__doc__]) *)

Definition doc_tabs_or_spaces : str := lit
"
    Never mix tabs and spaces.

    The most popular way of indenting Python is with spaces only.  The
    second-most popular way is with tabs only.  Code indented with a mixture
    of tabs and spaces should be converted to using spaces exclusively.  When
    invoking the Python command line interpreter with the -t option, it issues
    warnings about code that illegally mixes tabs and spaces.  When using -tt
    these warnings become errors.  These options are highly recommended!
    ".

Definition doc_tabs_obsolete : str := lit
"
    For new projects, spaces-only are strongly recommended over tabs.  Most
    editors have features that make this easy to do.
    ".

Definition doc_trailing_whitespace : str := lit
"
    JCR: Trailing whitespace is superfluous.
    ".

Definition doc_maximum_line_length : str := lit
"
    Limit all lines to a maximum of 79 characters.

    There are still many devices around that are limited to 80 character
    lines; plus, limiting windows to 80 characters makes it possible to have
    several windows side-by-side.  The default wrapping on such devices looks
    ugly.  Therefore, please limit all lines to a maximum of 79 characters.
    For flowing long blocks of text (docstrings or comments), limiting the
    length to 72 characters is recommended.
    ".

Definition doc_indentation : str := lit
"
    Use 4 spaces per indentation level.

    For really old code that you don't want to mess up, you can continue to
    use 8-space tabs.
    ".

Definition doc_blank_lines : str := lit
"
    Separate top-level function and class definitions with two blank lines.

    Method definitions inside a class are separated by a single blank line.

    Extra blank lines may be used (sparingly) to separate groups of related
    functions.  Blank lines may be omitted between a bunch of related
    one-liners (e.g. a set of dummy implementations).

    Use blank lines in functions, sparingly, to indicate logical sections.
    ".

Definition doc_extraneous_whitespace : str := lit
"
    Avoid extraneous whitespace in the following situations:

    - Immediately inside parentheses, brackets or braces.

    - Immediately before a comma, semicolon, or colon.
    ".

Definition doc_whitespace_before_parameters : str := lit
"
    Avoid extraneous whitespace in the following situations:

    - Immediately before the open parenthesis that starts the argument
      list of a function call.

    - Immediately before the open parenthesis that starts an indexing or
      slicing.
    ".

Definition doc_whitespace_around_operator : str := lit
"
    Avoid extraneous whitespace in the following situations:

    - More than one space around an assignment (or other) operator to
      align it with another.
    ".

Definition doc_imports_on_separate_lines : str := lit
"
    Imports should usually be on separate lines.
    ".

(** ** The functions of the module as check descriptors *)

Definition fn_physical (f : str -> option (Z * str)) : check_fn :=
  fun args st => match args with [VStr l] => inr (f l, st) | _ => inl TypeError end.
Definition fn_physical_state (f : str -> State -> option (Z * str) * State) : check_fn :=
  fun args st => match args with [VStr l; VState] => inr (f l st) | _ => inl TypeError end.
Definition fn_logical (f : str -> exn + option (Z * str)) : check_fn :=
  fun args st => match args with
                 | [VStr l] => match f l with inl e => inl e | inr r => inr (r, st) end
                 | _ => inl TypeError
                 end.
Definition fn_logical_full (f : str -> State -> Z -> option (Z * str) * State) : check_fn :=
  fun args st => match args with
                 | [VStr l; VState; VInt i] => inr (f l st i)
                 | _ => inl TypeError
                 end.

Definition maximum_line_length_check : descr :=
  Descr (lit "maximum_line_length") (map lit ["physical_line"])%string
    doc_maximum_line_length (fn_physical maximum_line_length).

(** The functions of [globals()] whose first argument is [physical_line]
    or [logical_line]; every other function of the module has a first
    argument ([line], [argument_name], [code], [text], [filename],
    [dirname], [error_count]) or none, so [find_checks] never selects it. *)
Definition module_globals : list descr :=
  [ Descr (lit "tabs_or_spaces") (map lit ["physical_line"; "state"])%string
      doc_tabs_or_spaces (fn_physical_state tabs_or_spaces);
    Descr (lit "tabs_obsolete") (map lit ["physical_line"])%string
      doc_tabs_obsolete (fn_physical tabs_obsolete);
    Descr (lit "trailing_whitespace") (map lit ["physical_line"])%string
      doc_trailing_whitespace (fn_physical trailing_whitespace);
    maximum_line_length_check;
    Descr (lit "indentation") (map lit ["logical_line"; "state"; "indent_level"])%string
      doc_indentation (fn_logical_full indentation);
    Descr (lit "blank_lines") (map lit ["logical_line"; "state"; "indent_level"])%string
      doc_blank_lines (fn_logical_full blank_lines);
    Descr (lit "extraneous_whitespace") (map lit ["logical_line"])%string
      doc_extraneous_whitespace (fn_logical extraneous_whitespace);
    Descr (lit "whitespace_before_parameters") (map lit ["logical_line"])%string
      doc_whitespace_before_parameters (fn_logical whitespace_before_parameters);
    Descr (lit "whitespace_around_operator") (map lit ["logical_line"])%string
      doc_whitespace_around_operator
      (fn_logical (fun l => inr (whitespace_around_operator l)));
    Descr (lit "imports_on_separate_lines") (map lit ["logical_line"])%string
      doc_imports_on_separate_lines
      (fn_logical (fun l => inr (imports_on_separate_lines l))) ].

(** Byte-wise string order of Python 2 [str]. *)
Fixpoint str_ltb (a b : str) : bool :=
  match a, b with
  | [], [] => false
  | [], _ :: _ => true
  | _ :: _, [] => false
  | c :: a', d :: b' =>
      let n := nat_of_ascii c in let m := nat_of_ascii d in
      if (n <? m)%nat then true else if (m <? n)%nat then false else str_ltb a' b'
  end.

Fixpoint insert_descr (d : descr) (l : list descr) : list descr :=
  match l with
  | [] => [d]
  | d' :: r => if str_ltb (d_name d') (d_name d) then d' :: insert_descr d r else d :: l
  end.

(** [checks.sort()]: the names of [globals()] are distinct, so the tuples
    are ordered by name. *)
Definition sort_descrs (l : list descr) : list descr := fold_right insert_descr [] l.

Definition find_checks (globals : list descr) (argument_name : str) : list descr :=
  sort_descrs
    (filter (fun d => match d_args d with
                      | a0 :: _ => startswith a0 argument_name
                      | [] => false
                      end) globals).

Definition ignore_code (o : Options) (code : str) : bool :=
  existsb (fun ig => startswith code ig) (ignore o).

(** [getattr(self, name)] on a [Checker] instance: its data attributes
    once assigned, its methods and the attributes every instance has. *)
Definition getattr (c : Checker) (name : str) : option value :=
  if str_eqb name (lit "filename") then Some (VStr (filename c))
  else if str_eqb name (lit "line_number") then option_map VInt (line_number c)
  else if str_eqb name (lit "state") then option_map (fun _ => VState) (state c)
  else if str_eqb name (lit "physical_line") then option_map VStr (physical_line c)
  else if str_eqb name (lit "logical_line") then option_map VStr (logical_line c)
  else if str_eqb name (lit "indent_level") then option_map VInt (indent_level c)
  else if str_mem name (map lit ["lines"; "physical_checks"; "logical_checks";
                                 "error_count"; "readline"; "readline_check_physical";
                                 "run_check"; "check_physical"; "check_logical";
                                 "check_all"; "report_error"; "__init__"; "__doc__";
                                 "__module__"; "__class__"; "__dict__"]%string)
  then Some (VOther name)
  else None.

Fixpoint get_args (c : Checker) (names : list str) : exn + list value :=
  match names with
  | [] => inr []
  | n :: rest =>
      match getattr c n with
      | None => inl (AttributeError n)
      | Some v => match get_args c rest with
                  | inl e => inl e
                  | inr vs => inr (v :: vs)
                  end
      end
  end.

Definition run_check (d : descr) : M World (option (Z * str)) :=
  fun w =>
    let c := chk w in
    match get_args c (d_args d) with
    | inl e => (w, inl e)
    | inr args =>
        let st := match state c with Some s => s | None => empty_state end in
        match d_fn d args st with
        | inl e => (w, inl e)
        | inr (r, st') =>
            let c' := match state c with Some _ => with_state c st' | None => c end in
            (Build_World c' (out w), inr r)
        end
    end.

(** ** [Checker.report_error] *)

(** [d[key] = d.get(key, 0) + 1] on a dictionary kept in insertion order. *)
Fixpoint dict_incr (d : list (str * Z)) (key : str) (n : Z) : list (str * Z) :=
  match d with
  | [] => [(key, n)]
  | (k, v) :: r => if str_eqb k key then (k, v + n) :: r else (k, v) :: dict_incr r key n
  end.

(** [os.path.basename]: the part after the last slash. *)
Definition basename (p : str) : str :=
  rev (take_while (fun c => negb (Ascii.eqb c "/"%char)) (rev p)).

(** [text] with a trailing parenthesized value removed, as counted. *)
Definition count_text_of (text : str) : str :=
  if endswith text (lit ")") then
    let found := rfind_char text "("%char in
    if -1 <? found then rstrip (py_take found text) else text
  else text.

Definition report_error (o : Options) (line_number : Z) (offset : Z) (text : str)
    (check : descr) : M World unit :=
  w <- get ;;
  (if (quiet o =? 1) && (match error_count (chk w) with [] => true | _ => false end)
   then message (filename (chk w)) else ret tt) ;;
  let code := py_take 4 text in
  let count_text := count_text_of text in
  modify_chk (fun c => with_error_count c (dict_incr (error_count c) count_text 1)) ;;
  if negb (quiet o =? 0) then ret tt else
  t <- (match testsuite o with
        | [] => ret false
        | _ =>
            let base := py_take 4 (basename (filename (chk w))) in
            if str_eqb base code then ret true
            else b0 <- lift_opt IndexError (py_index base 0) ;;
                 if Ascii.eqb b0 "E"%char
                 then c0 <- lift_opt IndexError (py_index code 0) ;;
                      ret (Ascii.eqb c0 "W"%char)
                 else ret false
        end) ;;
  if t then ret tt else
  if ignore_code o code then ret tt else
  message (filename (chk w) ++ lit ":" ++ z_str line_number ++ lit ":"
           ++ z_str (offset + 1) ++ lit ": " ++ text) ;;
  (if show_source o then
     line <- lift_opt IndexError (list_index (lines (chk w)) (line_number - 1)) ;;
     message line ;;
     message (repeat " "%char (Z.to_nat offset) ++ lit "^")
   else ret tt) ;;
  if show_pep8 o
  then message (rstrip (lstrip_by (fun c => Ascii.eqb c (chr 10)) (d_doc check)))
  else ret tt.

(** ** [check_physical], [check_logical] and [check_all] *)

Definition get_line_number : M World Z :=
  w <- get ;; lift_opt (AttributeError (lit "line_number")) (line_number (chk w)).

Fixpoint physical_loop (o : Options) (checks : list descr) : M World unit :=
  match checks with
  | [] => ret tt
  | d :: rest =>
      r <- run_check d ;;
      match r with
      | None => physical_loop o rest
      | Some (offset, text) =>
          n <- get_line_number ;;
          report_error o n offset text d ;;
          physical_loop o rest
      end
  end.

Definition check_physical (o : Options) (line : str) : M World unit :=
  modify_chk (fun c => with_physical_line c line) ;;
  w <- get ;;
  physical_loop o (physical_checks (chk w)).

Definition readline : M World str :=
  n <- get_line_number ;;
  modify_chk (fun c => with_line_number c (n + 1)) ;;
  w <- get ;;
  if Z.of_nat (length (lines (chk w))) <? n + 1 then ret []
  else lift_opt IndexError (list_index (lines (chk w)) (n + 1 - 1)).

Definition readline_check_physical (o : Options) : M World str :=
  line <- readline ;;
  check_physical o line ;;
  ret line.

(** The loop over [self.logical_checks]; [bound] holds the locals
    [original_number], [original_indent], [original_offset], which keep
    their values from one check to the next. *)
Fixpoint logical_loop (o : Options) (mapping : list seg) (checks : list descr)
    (bound : option (Z * Z * Z)) : M World unit :=
  match checks with
  | [] => ret tt
  | d :: rest =>
      r <- run_check d ;;
      match r with
      | None => logical_loop o mapping rest bound
      | Some (offset, text) =>
          let bound' := map_offset_loop mapping offset bound in
          match bound' with
          | None => raise (UnboundLocalError (lit "original_number"))
          | Some (original_number, _, original_offset) =>
              report_error o original_number original_offset text d ;;
              logical_loop o mapping rest bound'
          end
      end
  end.

Definition check_logical (o : Options) (start end_ : Z * Z) (tokens : list token)
    : M World unit :=
  w <- get ;;
  ml <- lift_opt IndexError (build_logical (lines (chk w)) start end_ tokens) ;;
  let '(mapping, logical) := ml in
  il <- lift_opt IndexError (option_map seg_indent (hd_error mapping)) ;;
  modify_chk (fun c => with_logical c logical il) ;;
  w <- get ;;
  logical_loop o mapping (logical_checks (chk w)) None.

(** What [tokenize.generate_tokens(self.readline_check_physical)] does, in
    order: call the [readline] it was given, yield a token, or raise
    [tokenize.TokenError]. The standard tokenizer is outside the module;
    its run on a file is an input of [check_all]. *)
Inductive event :=
  | EvRead
  | EvTok (t : token)
  | EvTokenError.

Definition is_open (t : token) : bool :=
  tok_type_eqb (tok_kind t) OP && (-1 <? find (lit "([{") (tok_str t)).
Definition is_close (t : token) : bool :=
  tok_type_eqb (tok_kind t) OP && (-1 <? find (lit "}])") (tok_str t)).

Fixpoint all_loop (o : Options) (evs : list event) (start : option (Z * Z))
    (tokens : list token) (parens : Z) : M World unit :=
  match evs with
  | [] => ret tt
  | EvRead :: rest => _ <- readline_check_physical o ;; all_loop o rest start tokens parens
  | EvTokenError :: _ => raise TokenError
  | EvTok t :: rest =>
      let tokens := tokens ++ [t] in
      let st := match start with None => tok_start t | Some s => s end in
      let parens := if is_open t then parens + 1 else parens in
      let parens := if is_close t then parens - 1 else parens in
      if tok_type_eqb (tok_kind t) NEWLINE && (parens =? 0) then
        check_logical o st (tok_end t) tokens ;;
        all_loop o rest None [] parens
      else all_loop o rest (Some st) tokens parens
  end.

Definition check_all (o : Options) (evs : list event) : M World (list (str * Z)) :=
  modify_chk (fun c => with_line_number c 0) ;;
  modify_chk (fun c => with_error_count c []) ;;
  modify_chk (fun c => with_state c empty_state) ;;
  all_loop o evs None [] 0 ;;
  w <- get ;;
  ret (error_count (chk w)).

(** ** [Checker(filename)], [input_file] and [input_dir] *)

(** A source file: its name, its lines ([file(filename).readlines()]) and
    what the standard tokenizer does on it. *)
Record source_file := SourceFile {
  sf_name : str;
  sf_lines : list str;
  sf_events : list event
}.

(** [Checker(filename)]: the checks are found anew for every file; the
    attributes assigned later start unassigned ([error_count] is assigned
    by [check_all] before any use). *)
Definition new_checker (globals : list descr) (f : source_file) : Checker :=
  Build_Checker (sf_name f) (sf_lines f)
    (find_checks globals (lit "physical_line"))
    (find_checks globals (lit "logical_line"))
    None [] None None None None.

Definition input_file (o : Options) (globals : list descr) (f : source_file)
    : M World (list (str * Z)) :=
  (if negb (verbose o =? 0) then message (lit "checking " ++ sf_name f) else ret tt) ;;
  w <- get ;;
  put (Build_World (new_checker globals f) (out w)) ;;
  ec <- check_all o (sf_events f) ;;
  (match testsuite o, ec with
   | _ :: _, [] => message (sf_name f ++ lit ": " ++ lit "no errors found")
   | _, _ => ret tt
   end) ;;
  ret ec.

(** What [input_file] does on a file before its token stream reaches a
    given point: the steps of [input_file] up to [check_all], with
    [check_all] run on the events before that point. *)
Definition input_file_upto (o : Options) (globals : list descr) (f : source_file)
    (evs : list event) : M World (list (str * Z)) :=
  (if negb (verbose o =? 0) then message (lit "checking " ++ sf_name f) else ret tt) ;;
  w <- get ;;
  put (Build_World (new_checker globals f) (out w)) ;;
  check_all o evs.

Definition add_error_count (error_count file_errors : list (str * Z)) : list (str * Z) :=
  fold_left (fun acc '(code, n) => dict_incr acc code n) file_errors error_count.

(** The loop of [input_dir] over the files of one directory, in the order
    the directory walk yields them (walking, sorting and exclusion are not
    modelled); it returns the aggregated [error_count] it builds. *)
Fixpoint input_dir_files (o : Options) (globals : list descr)
    (files : list source_file) (error_count : list (str * Z))
    : M World (list (str * Z)) :=
  match files with
  | [] => ret error_count
  | f :: rest =>
      file_errors <- input_file o globals f ;;
      input_dir_files o globals rest (add_error_count error_count file_errors)
  end.

(** Running a computation from an initial world. *)
Definition run {A} (m : M World A) (w : World) : World * (exn + A) := m w.

Definition no_checker : Checker :=
  Build_Checker [] [] [] [] None [] None None None None.

Definition start_world : World := Build_World no_checker [].

(** The default options: no flag given on the command line. *)
Definition default_options : Options :=
  Build_Options 0 0 [] false false false [].

(** ** Further functions of the module *)

(** ** [get_indent] *)

(** The loop of [get_indent] from the value [result]. *)
Fixpoint get_indent_loop (line : str) (result : Z) : Z :=
  match line with
  | [] => result
  | char :: rest =>
      if Ascii.eqb char tab then get_indent_loop rest (result / 8 * 8 + 8)
      else if Ascii.eqb char " "%char then get_indent_loop rest (result + 1)
      else result
  end.

Definition get_indent (line : str) : Z := get_indent_loop line 0.

(** ** The [--ignore] option of [_main] *)

(** [s.split(sep)] for a one-character separator. *)
Fixpoint py_split (sep : ascii) (s : str) : list str :=
  match s with
  | [] => [[]]
  | c :: r =>
      let parts := py_split sep r in
      if Ascii.eqb c sep then [] :: parts
      else match parts with
           | p :: ps => (c :: p) :: ps
           | [] => [[c]]
           end
  end.

(** [sep.join(parts)]. *)
Fixpoint py_join (sep : ascii) (parts : list str) : str :=
  match parts with
  | [] => []
  | [p] => p
  | p :: ps => p ++ sep :: py_join sep ps
  end.

(** [options.ignore] as [_main] sets it from the [--ignore] value. *)
Definition parse_ignore (s : str) : list str :=
  match s with
  | [] => []
  | _ => py_split ","%char s
  end.

(** ** The [error_count] dictionaries *)

(** [d.get(key, 0)]. *)
Fixpoint dict_get (d : list (str * Z)) (key : str) : Z :=
  match d with
  | [] => 0
  | (k, v) :: r => if str_eqb k key then v else dict_get r key
  end.

(** ** Checks run over successive lines with one [state] *)

(** [tabs_or_spaces] on each physical line of a file in turn. *)
Fixpoint tabs_or_spaces_run (physical_lines : list str) (st : State) : State :=
  match physical_lines with
  | [] => st
  | l :: rest => tabs_or_spaces_run rest (snd (tabs_or_spaces l st))
  end.

(** [blank_lines] on each logical line (with its indent level) in turn:
    its results, and the final [state]. *)
Fixpoint blank_lines_run (logical_lines : list (str * Z)) (st : State)
    : list (option (Z * str)) * State :=
  match logical_lines with
  | [] => ([], st)
  | (l, il) :: rest =>
      let '(r, st') := blank_lines l st il in
      let '(rs, st'') := blank_lines_run rest st' in
      (r :: rs, st'')
  end.

(** A character of [indent_match]: a space or a tab. *)
Definition is_blank (c : ascii) : Prop := c = " "%char \/ c = tab.

(** The loop of [rfind_char]. *)
Fixpoint rfind_go (c : ascii) (l : str) (i best : Z) : Z :=
  match l with
  | [] => best
  | d :: t => rfind_go c t (i + 1) (if Ascii.eqb d c then i else best)
  end.

(** A decimal digit, as [str(n)] writes it. *)
Definition is_digit (d : ascii) : Prop := (48 <= N_of_ascii d <= 57)%N.

(** What [blank_lines] reports on a non-empty logical line when the
    count of blank lines before it is 0. *)
Definition def_line_finding (logical_line : str) (indent_level : Z) : option (Z * str) :=
  if startswith logical_line (lit "def ") then
    if 0 <? indent_level then Some (0, lit "E301 expected 1 blank line, found 0")
    else if indent_level =? 0 then Some (0, lit "E302 expected 2 blank lines, found 0")
    else None
  else None.

(** The first line [report_error] prints: [%s:%s:%d: %s]. *)
Definition error_location (filename : str) (line_number offset : Z) (text : str) : str :=
  filename ++ lit ":" ++ z_str line_number ++ lit ":" ++ z_str (offset + 1) ++ lit ": " ++ text.

(** ** Properties used in the statements *)

(** Every string token on line [line_number] fills a range
    [string_start <= string_end] inside the line. *)
Definition string_tokens_fit (line_number : Z) (line : str) (tokens : list token) : Prop :=
  forall t, In t tokens -> overlaps line_number t = true -> tok_kind t = STRING ->
    let '(s, e) := string_span line_number line t in 0 <= s /\ s <= e /\ e <= len line.

Definition triple_quoted (x : str) : bool :=
  startswith x [dq; dq; dq] || startswith x (lit "'''").

(** The line holds one string literal [x] (after its indentation [pre]),
    and that literal is the only string token on the line. *)
Definition only_string_literal (line_number : Z) (line : str) (tokens : list token) : Prop :=
  exists pre x l,
    line = pre ++ x /\ (2 <= length x)%nat /\
    (triple_quoted x = true -> (6 <= length x)%nat) /\
    forall t, In t tokens -> overlaps line_number t = true -> tok_kind t = STRING ->
      t = Tok STRING x (line_number, len pre) (line_number, len pre + len x) l.

(** ** Lemmas on the Python primitives *)

Lemma len_app (a b : str) : len (a ++ b) = len a + len b.
Proof. unfold len; rewrite length_app; lia. Qed.

Lemma len_nonneg (a : str) : 0 <= len a.
Proof. unfold len; lia. Qed.

Lemma py_take_length (i : Z) (l : str) :
  0 <= i <= len l -> length (py_take i l) = Z.to_nat i.
Proof.
  intros H. unfold py_take, py_bound, len in *.
  destruct (i <? 0) eqn:E; [lia|]. rewrite length_firstn. lia.
Qed.

Lemma py_drop_length (i : Z) (l : str) :
  0 <= i <= len l -> length (py_drop i l) = (length l - Z.to_nat i)%nat.
Proof.
  intros H. unfold py_drop, py_bound, len in *.
  destruct (i <? 0) eqn:E; [lia|]. rewrite length_skipn. reflexivity.
Qed.

Lemma fill_length (line : str) (s e : Z) :
  0 <= s /\ s <= e /\ e <= len line ->
  length (py_take s line ++ repeat_x (e - s) ++ py_drop e line) = length line.
Proof.
  intros H. rewrite !length_app, py_take_length by lia.
  rewrite py_drop_length by lia. unfold repeat_x. rewrite repeat_length.
  unfold len in *. lia.
Qed.

Lemma string_span_length (n : Z) (l1 l2 : str) (t : token) :
  length l1 = length l2 -> string_span n l1 t = string_span n l2 t.
Proof.
  intros H. unfold string_span, len. rewrite H. reflexivity.
Qed.

Lemma mute_line_cons (line : str) (n : Z) (t : token) (ts : list token) :
  mute_line line n (t :: ts) = mute_line (mute_token n line t) n ts.
Proof. reflexivity. Qed.

Lemma mute_token_length (n : Z) (line : str) (t : token) :
  (overlaps n t = true -> tok_kind t <> COMMENT) ->
  (overlaps n t = true -> tok_kind t = STRING ->
     let '(s, e) := string_span n line t in 0 <= s /\ s <= e /\ e <= len line) ->
  length (mute_token n line t) = length line.
Proof.
  intros Hc Hs. unfold mute_token.
  destruct (overlaps n t) eqn:Ov; [|reflexivity].
  specialize (Hc eq_refl).
  destruct (tok_kind t) eqn:K; try reflexivity; [|congruence].
  specialize (Hs eq_refl eq_refl).
  destruct (string_span n line t) as [s e]. apply fill_length. lia.
Qed.

Lemma mute_line_length_fit (tokens : list token) (line : str) (n : Z) :
  (forall t, In t tokens -> overlaps n t = true -> tok_kind t <> COMMENT) ->
  string_tokens_fit n line tokens ->
  length (mute_line line n tokens) = length line.
Proof.
  revert line. induction tokens as [|t ts IH]; intros line Hc Hs; [reflexivity|].
  rewrite mute_line_cons.
  assert (L : length (mute_token n line t) = length line).
  { apply mute_token_length.
    - apply Hc; left; reflexivity.
    - intros O K. apply (Hs t (or_introl eq_refl) O K). }
  rewrite IH; [exact L| |].
  - intros u Hu. apply Hc. right. exact Hu.
  - intros u Hu O K. rewrite (string_span_length n _ line u L).
    unfold len. rewrite L. apply (Hs u (or_intror Hu) O K).
Qed.

Lemma only_literal_fits (n : Z) (line : str) (tokens : list token) :
  only_string_literal n line tokens -> string_tokens_fit n line tokens.
Proof.
  intros (pre & x & l & -> & H2 & H6 & Ht) t Hin O K.
  rewrite (Ht t Hin O K). unfold string_span. cbn [tok_start tok_end tok_str].
  rewrite Z.ltb_irrefl. rewrite len_app.
  unfold triple_quoted in H6.
  destruct (startswith x [dq; dq; dq] || startswith x (lit "'''")).
  - specialize (H6 eq_refl). unfold len. lia.
  - unfold len. lia.
Qed.

(** ** Lemmas on the logical-line builder *)

(** What [mapping] and [logical] satisfy after every iteration. *)
Definition builder_inv (acc : list seg * str) : Prop :=
  let '(mapping, logical) := acc in
  StronglySorted Z.le (map seg_offset mapping) /\
  Forall (fun s => seg_offset s <= len logical) mapping /\
  match mapping with [] => logical = [] | s0 :: _ => seg_offset s0 = 0 end.

Lemma strongly_sorted_snoc (l : list Z) (x : Z) :
  StronglySorted Z.le l -> Forall (fun y => y <= x) l -> StronglySorted Z.le (l ++ [x]).
Proof.
  induction l as [|a l IH]; intros Hs Hf; simpl.
  - constructor; [constructor | constructor].
  - inversion Hs as [|? ? Hs' Ha]; subst. inversion Hf as [|? ? Hax Hf']; subst.
    constructor; [apply IH; assumption|].
    apply Forall_app. split; [assumption|]. constructor; [assumption|constructor].
Qed.

Lemma build_step_inv (lines : list str) (tokens : list token) (acc acc' : list seg * str) (n : Z) :
  builder_inv acc -> build_step lines tokens acc n = Some acc' -> builder_inv acc'.
Proof.
  destruct acc as [m lg]. intros (Hs & Hf & Hh) E. unfold build_step in E.
  destruct (list_index lines (n - 1)) as [raw|]; [|discriminate].
  destruct (mute_line (rstrip raw) n tokens) as [|c r] eqn:Mu.
  - injection E as <-. exact (conj Hs (conj Hf Hh)).
  - set (piece := (let line := lstrip (c :: r) in
                   if endswith line (lit "\") then py_take (-1) line else line)) in E.
    set (lg' := if endswith lg (lit ",") then lg ++ lit " " else lg) in E.
    assert (G : len lg <= len lg').
    { unfold lg'. destruct (endswith lg (lit ",")); [rewrite len_app|]; unfold len; simpl; lia. }
    injection E as <-. split; [|split].
    + rewrite map_app. apply strongly_sorted_snoc; [exact Hs|].
      rewrite Forall_map. eapply Forall_impl; [|exact Hf]. intros a Ha.
      cbv beta in Ha. cbn [seg_offset fst snd] in *. lia.
    + apply Forall_app. split.
      * eapply Forall_impl; [|exact Hf]. intros a Ha. cbv beta in *. rewrite len_app.
        pose proof (len_nonneg piece). lia.
      * constructor; [|constructor]. unfold seg_offset. simpl. rewrite len_app.
        pose proof (len_nonneg piece). lia.
    + destruct m as [|s0 m'].
      * subst lg. simpl. reflexivity.
      * exact Hh.
Qed.

Lemma build_loop_inv (lines : list str) (tokens : list token) (nums : list Z) :
  forall acc acc', builder_inv acc -> build_loop lines tokens acc nums = Some acc' ->
  builder_inv acc'.
Proof.
  induction nums as [|n ns IH]; intros acc acc' Hi E; simpl in E.
  - injection E as <-. exact Hi.
  - destruct (build_step lines tokens acc n) as [acc1|] eqn:S1; [|discriminate].
    apply (IH acc1); [eapply build_step_inv; eassumption | exact E].
Qed.

(** ** The token loop of [check_all] *)

(** The bracket depth after one token, as [check_all] updates [parens]. *)
Definition paren_step (parens : Z) (t : token) : Z :=
  let parens := if is_open t then parens + 1 else parens in
  if is_close t then parens - 1 else parens.

(** No token of the list ends a statement when the depth starts at
    [parens]: every [NEWLINE] token is met at a non-zero depth. *)
Fixpoint no_statement_end (parens : Z) (ts : list token) : bool :=
  match ts with
  | [] => true
  | t :: r =>
      negb (tok_type_eqb (tok_kind t) NEWLINE && (paren_step parens t =? 0))
      && no_statement_end (paren_step parens t) r
  end.

Fixpoint toks_of (evs : list event) : list token :=
  match evs with
  | [] => []
  | EvTok t :: r => t :: toks_of r
  | _ :: r => toks_of r
  end.

(** The [readline_check_physical] calls among the events. *)
Fixpoint run_reads (o : Options) (evs : list event) : M World unit :=
  match evs with
  | [] => ret tt
  | EvRead :: r => _ <- readline_check_physical o ;; run_reads o r
  | EvTok _ :: r => run_reads o r
  | EvTokenError :: _ => raise TokenError
  end.

Definition first_start (start : option (Z * Z)) (ts : list token) : option (Z * Z) :=
  match start with
  | Some s => Some s
  | None => option_map tok_start (hd_error ts)
  end.

Lemma bind_assoc {S A B C} (m : M S A) (f : A -> M S B) (g : B -> M S C) (w : S) :
  bind (bind m f) g w = bind m (fun x => bind (f x) g) w.
Proof. unfold bind. destruct (m w) as [w' [e|a]]; reflexivity. Qed.

Lemma bind_ext {S A B} (m : M S A) (f g : A -> M S B) (w : S) :
  (forall x w', f x w' = g x w') -> bind m f w = bind m g w.
Proof. intros H. unfold bind. destruct (m w) as [w' [e|a]]; [reflexivity|apply H]. Qed.

Lemma bind_ret_l {S A B} (a : A) (f : A -> M S B) (w : S) : bind (ret a) f w = f a w.
Proof. reflexivity. Qed.

Lemma all_loop_no_end (o : Options) (evs rest : list event) :
  forall start tokens parens w,
  (forall e, In e evs -> e <> EvTokenError) ->
  no_statement_end parens (toks_of evs) = true ->
  all_loop o (evs ++ rest) start tokens parens w =
  bind (run_reads o evs)
    (fun _ => all_loop o rest (first_start start (toks_of evs)) (tokens ++ toks_of evs)
                (fold_left paren_step (toks_of evs) parens)) w.
Proof.
  induction evs as [|ev evs IH]; intros start tokens parens w He Hn.
  - simpl. rewrite app_nil_r. destruct start; reflexivity.
  - destruct ev as [|t|].
    + simpl. rewrite bind_assoc. apply bind_ext. intros _ w'.
      apply IH; [intros e Hin; apply He; right; exact Hin | exact Hn].
    + simpl in Hn. apply andb_prop in Hn as [Hb Hn].
      cbn [app all_loop run_reads toks_of].
      unfold paren_step in Hb, Hn. apply negb_true_iff in Hb. rewrite Hb.
      rewrite IH; [|intros e Hin; apply He; right; exact Hin| exact Hn].
      apply bind_ext. intros _ w'. rewrite <- app_assoc. destruct start; reflexivity.
    + exfalso. apply (He EvTokenError); [left; reflexivity | reflexivity].
Qed.

Lemma all_loop_statement (o : Options) (evs rest : list event) (tn : token) (w : World) :
  (forall e, In e evs -> e <> EvTokenError) ->
  no_statement_end 0 (toks_of evs) = true ->
  tok_kind tn = NEWLINE ->
  paren_step (fold_left paren_step (toks_of evs) 0) tn = 0 ->
  all_loop o (evs ++ EvTok tn :: rest) None [] 0 w =
  (run_reads o evs ;;
   check_logical o (tok_start (hd tn (toks_of evs))) (tok_end tn) (toks_of evs ++ [tn]) ;;
   all_loop o rest None [] 0) w.
Proof.
  intros He Hn Hk Hp.
  rewrite (all_loop_no_end o evs (EvTok tn :: rest) None [] 0 w He Hn).
  apply bind_ext. intros _ w'.
  set (P := fold_left paren_step (toks_of evs) 0) in *.
  cbn [all_loop]. rewrite Hk. unfold paren_step in Hp. rewrite Hp. cbn [tok_type_eqb Z.eqb andb].
  destruct (toks_of evs) as [|t0 ts]; reflexivity.
Qed.

(** ** Lemmas on the indentation of the first line of a statement *)

Lemma rstrip_keeps (p q : str) (c : ascii) :
  is_ws c = false -> exists q', rstrip (p ++ c :: q) = p ++ c :: q'.
Proof.
  intros Hc. unfold rstrip. induction p as [|a p IH].
  - simpl. destruct (rstrip_by is_ws q) as [|x r].
    + rewrite Hc. exists []. reflexivity.
    + exists (x :: r). reflexivity.
  - destruct IH as [q' IH]. exists q'. simpl. rewrite IH.
    destruct p; reflexivity.
Qed.

Lemma firstn_keeps (p q : str) (c : ascii) (k : nat) :
  (length p < k)%nat -> exists q', firstn k (p ++ c :: q) = p ++ c :: q'.
Proof.
  revert k. induction p as [|a p IH]; intros k Hk.
  - destruct k; [simpl in Hk; lia|]. exists (firstn k q). reflexivity.
  - destruct k; [simpl in Hk; lia|]. simpl in Hk.
    destruct (IH k ltac:(lia)) as [q' E]. exists q'. simpl. rewrite E. reflexivity.
Qed.

Lemma py_take_keeps (p q : str) (c : ascii) (i : Z) :
  len p < i -> exists q', py_take i (p ++ c :: q) = p ++ c :: q'.
Proof.
  intros H. unfold py_take, py_bound. pose proof (len_nonneg p).
  destruct (i <? 0) eqn:E; [apply Z.ltb_lt in E; lia|].
  apply firstn_keeps. unfold len in H. lia.
Qed.

(** The comments and strings that touch line [n] start on that line,
    after its indentation [ws] (a string may start right at its end). *)
Definition tokens_after_indent (n : Z) (ws : str) (tokens : list token) : Prop :=
  forall t, In t tokens -> overlaps n t = true ->
    (tok_kind t = COMMENT -> fst (tok_start t) = n /\ len ws < snd (tok_start t)) /\
    (tok_kind t = STRING -> fst (tok_start t) = n /\ len ws <= snd (tok_start t)).

(** Row [r] is blank or holds only a comment: an indentation [ws], then
    either only whitespace or a comment whose [COMMENT] token is among the
    tokens; the tokens that touch the row are no strings, and its
    comments start within [ws]. These are the rows of blank lines and
    comment lines whose [NL] and [COMMENT] tokens open a statement's
    token list. *)
Definition comment_or_blank_row (lines : list str) (tokens : list token) (r : Z) : Prop :=
  exists ws rest,
    list_index lines (r - 1) = Some (ws ++ rest) /\
    Forall (fun x => is_ws x = true) ws /\
    (Forall (fun x => is_ws x = true) rest \/
     exists t, In t tokens /\ tok_kind t = COMMENT /\ overlaps r t = true) /\
    forall t, In t tokens -> overlaps r t = true ->
      tok_kind t <> STRING /\
      (tok_kind t = COMMENT -> 0 <= snd (tok_start t) <= len ws).

Lemma string_span_start (n : Z) (line : str) (t : token) :
  fst (tok_start t) = n -> snd (tok_start t) + 1 <= fst (string_span n line t).
Proof.
  intros Hr. unfold string_span. destruct (tok_start t) as [sr sc]. destruct (tok_end t) as [er ec].
  simpl in Hr. subst sr. rewrite Z.ltb_irrefl.
  destruct (startswith (tok_str t) [dq; dq; dq] || startswith (tok_str t) (lit "'''"));
    destruct (n <? er); simpl; lia.
Qed.

Lemma mute_token_keeps (n : Z) (ws q : str) (c : ascii) (t : token) :
  is_ws c = false ->
  (overlaps n t = true ->
    (tok_kind t = COMMENT -> fst (tok_start t) = n /\ len ws < snd (tok_start t)) /\
    (tok_kind t = STRING -> fst (tok_start t) = n /\ len ws <= snd (tok_start t))) ->
  exists q', mute_token n (ws ++ c :: q) t = ws ++ c :: q'.
Proof.
  intros Hc H. unfold mute_token.
  destruct (overlaps n t) eqn:O; [|exists q; reflexivity].
  destruct (H eq_refl) as [Hcm Hst].
  destruct (tok_kind t) eqn:K; try (exists q; reflexivity).
  - destruct (Hst eq_refl) as [Hr Hcol].
    pose proof (string_span_start n (ws ++ c :: q) t Hr) as Hs.
    destruct (string_span n (ws ++ c :: q) t) as [s e]. simpl in Hs.
    destruct (py_take_keeps ws q c s ltac:(lia)) as [q' E]. rewrite E.
    exists (q' ++ repeat_x (e - s) ++ py_drop e (ws ++ c :: q)).
    rewrite <- app_assoc. reflexivity.
  - destruct (Hcm eq_refl) as [_ Hcol].
    destruct (py_take_keeps ws q c (snd (tok_start t)) Hcol) as [q' E]. rewrite E.
    apply rstrip_keeps. exact Hc.
Qed.

Lemma mute_line_keeps (n : Z) (ws : str) (c : ascii) (tokens : list token) :
  is_ws c = false -> tokens_after_indent n ws tokens ->
  forall q, exists q', mute_line (ws ++ c :: q) n tokens = ws ++ c :: q'.
Proof.
  intros Hc. induction tokens as [|t ts IH]; intros H q.
  - exists q. reflexivity.
  - rewrite mute_line_cons.
    destruct (mute_token_keeps n ws q c t Hc (H t (or_introl eq_refl))) as [q1 E].
    rewrite E. apply IH. intros u Hu. apply H. right. exact Hu.
Qed.

Lemma lstrip_indent (ws q : str) (c : ascii) :
  Forall (fun x => is_ws x = true) ws -> is_ws c = false ->
  lstrip (ws ++ c :: q) = c :: q.
Proof.
  intros Hw Hc. unfold lstrip. induction Hw as [|x ws Hx Hw IH].
  - simpl. rewrite Hc. reflexivity.
  - simpl. rewrite Hx. exact IH.
Qed.

Lemma build_loop_head (lines : list str) (tokens : list token) (nums : list Z) :
  (forall k, In k nums -> 0 <= k - 1 < Z.of_nat (length lines)) ->
  forall s0 m lg, exists m' lg',
    build_loop lines tokens (s0 :: m, lg) nums = Some (s0 :: m', lg').
Proof.
  intros Hk. induction nums as [|k ks IH]; intros s0 m lg.
  - exists m, lg. reflexivity.
  - simpl. unfold build_step.
    assert (Hl : exists raw, list_index lines (k - 1) = Some raw).
    { destruct (Hk k (or_introl eq_refl)) as [H1 H2]. unfold list_index.
      destruct (k - 1 <? 0) eqn:E; [apply Z.ltb_lt in E; lia|]. rewrite ?E.
      destruct (nth_error lines (Z.to_nat (k - 1))) as [raw|] eqn:N.
      - exists raw. reflexivity.
      - apply nth_error_None in N. lia. }
    destruct Hl as [raw ->].
    assert (IH' : forall s0 m lg, exists m' lg',
              build_loop lines tokens (s0 :: m, lg) ks = Some (s0 :: m', lg')).
    { apply IH. intros k' Hin. apply Hk. right. exact Hin. }
    destruct (mute_line (rstrip raw) k tokens) as [|x r].
    + apply IH'.
    + apply IH'.
Qed.

Lemma zrange_cons (a b : Z) : a < b -> zrange a b = a :: zrange (a + 1) b.
Proof.
  intros H. unfold zrange. replace (Z.to_nat (b - a)) with (S (Z.to_nat (b - (a + 1)))) by lia.
  simpl. f_equal; [lia|]. rewrite <- seq_shift, map_map. apply map_ext. intros k. lia.
Qed.

Lemma zrange_in (a b k : Z) : In k (zrange a b) -> a <= k < b.
Proof.
  unfold zrange. intros Hin. apply in_map_iff in Hin as (j & <- & Hj).
  apply in_seq in Hj. lia.
Qed.

(** [check_logical] once its [mapping] is built: it assigns
    [logical_line] and [indent_level] ([mapping[0][2]]), then runs the
    logical checks. *)
Lemma check_logical_unfold (o : Options) (w0 : World) (start end_ : Z * Z)
    (tokens : list token) (s0 : seg) (rest : list seg) (logical : str) :
  build_logical (lines (chk w0)) start end_ tokens = Some (s0 :: rest, logical) ->
  check_logical o start end_ tokens w0 =
    (modify_chk (fun c => with_logical c logical (seg_indent s0)) ;;
     w <- get ;;
     logical_loop o (s0 :: rest) (logical_checks (chk w)) None) w0.
Proof.
  intros E. unfold check_logical, bind, get, lift_opt at 1. simpl. rewrite E. reflexivity.
Qed.

(** ** Concrete inputs *)

Definition nl : str := [chr 10].

(** A token event of the standard tokenizer. *)
Definition tk (k : tok_type) (s : str) (r1 c1 r2 c2 : Z) (l : str) : event :=
  EvTok (Tok k s (r1, c1) (r2, c2) l).

Definition tok_of (k : tok_type) (s : str) (r1 c1 r2 c2 : Z) : token :=
  Tok k s (r1, c1) (r2, c2) [].

(** The line [x = 1  # one] of a file, with its tokens and those of the
    next line. *)
Definition ex_code_line : str := lit "x = 1".
Definition ex_code_tokens : list token :=
  [tok_of NAME (lit "x") 1 0 1 1; tok_of OP (lit "=") 1 2 1 3;
   tok_of NUMBER (lit "1") 1 4 1 5; tok_of NEWLINE nl 1 5 1 6;
   tok_of STRING (lit "'s'") 2 0 2 3; tok_of COMMENT (lit "# c") 2 4 2 7].

(** The line [    "abc"] holding a single string literal. *)
Definition ex_string_line : str := lit "    " ++ [dq] ++ lit "abc" ++ [dq].
Definition ex_string_tokens : list token :=
  [Tok INDENT (lit "    ") (3, 0) (3, 4) ex_string_line;
   Tok STRING ([dq] ++ lit "abc" ++ [dq]) (3, 4) (3, 9) ex_string_line;
   Tok NEWLINE nl (3, 9) (3, 10) ex_string_line].

(** The file [foo(1,\n    2 )\n]: a call continued inside brackets,
    with the tokens and [readline] calls of the standard tokenizer. *)
Definition bracket_lines : list str := [lit "foo(1," ++ nl; lit "    2 )" ++ nl].
Definition bracket_tokens : list token :=
  [Tok NAME (lit "foo") (1, 0) (1, 3) (lit "foo(1," ++ nl);
   Tok OP (lit "(") (1, 3) (1, 4) (lit "foo(1," ++ nl);
   Tok NUMBER (lit "1") (1, 4) (1, 5) (lit "foo(1," ++ nl);
   Tok OP (lit ",") (1, 5) (1, 6) (lit "foo(1," ++ nl);
   Tok NL nl (1, 6) (1, 7) (lit "foo(1," ++ nl);
   Tok NUMBER (lit "2") (2, 4) (2, 5) (lit "    2 )" ++ nl);
   Tok OP (lit ")") (2, 6) (2, 7) (lit "    2 )" ++ nl);
   Tok NEWLINE nl (2, 7) (2, 8) (lit "    2 )" ++ nl)].
Definition bracket_stmt : list event :=
  [EvRead] ++ map EvTok (firstn 5 bracket_tokens) ++ [EvRead]
  ++ map EvTok (skipn 5 bracket_tokens).
Definition bracket_events : list event :=
  bracket_stmt ++ [EvRead; tk ENDMARKER [] 3 0 3 0 []].
Definition bracket_file (name : str) : source_file :=
  SourceFile name bracket_lines bracket_events.

(** The file [if True:\n    x = 1  \n]. *)
Definition trailing_lines : list str := [lit "if True:" ++ nl; lit "    x = 1  " ++ nl].
Definition trailing_events : list event :=
  let l1 := nth 0 trailing_lines [] in let l2 := nth 1 trailing_lines [] in
  [EvRead;
   tk NAME (lit "if") 1 0 1 2 l1; tk NAME (lit "True") 1 3 1 7 l1;
   tk OP (lit ":") 1 7 1 8 l1; tk NEWLINE nl 1 8 1 9 l1;
   EvRead;
   tk INDENT (lit "    ") 2 0 2 4 l2; tk NAME (lit "x") 2 4 2 5 l2;
   tk OP (lit "=") 2 6 2 7 l2; tk NUMBER (lit "1") 2 8 2 9 l2;
   tk NEWLINE nl 2 11 2 12 l2;
   EvRead;
   tk DEDENT [] 3 0 3 0 []; tk ENDMARKER [] 3 0 3 0 []].
Definition trailing_file (name : str) : source_file :=
  SourceFile name trailing_lines trailing_events.

(** The file [def f():\n    pass\ndef g():\n    pass\n]. *)
Definition defs_lines : list str :=
  [lit "def f():" ++ nl; lit "    pass" ++ nl; lit "def g():" ++ nl; lit "    pass" ++ nl].
Definition defs_events : list event :=
  let l1 := nth 0 defs_lines [] in let l2 := nth 1 defs_lines [] in
  let l3 := nth 2 defs_lines [] in let l4 := nth 3 defs_lines [] in
  [EvRead;
   tk NAME (lit "def") 1 0 1 3 l1; tk NAME (lit "f") 1 4 1 5 l1;
   tk OP (lit "(") 1 5 1 6 l1; tk OP (lit ")") 1 6 1 7 l1;
   tk OP (lit ":") 1 7 1 8 l1; tk NEWLINE nl 1 8 1 9 l1;
   EvRead;
   tk INDENT (lit "    ") 2 0 2 4 l2; tk NAME (lit "pass") 2 4 2 8 l2;
   tk NEWLINE nl 2 8 2 9 l2;
   EvRead;
   tk DEDENT [] 3 0 3 0 l3;
   tk NAME (lit "def") 3 0 3 3 l3; tk NAME (lit "g") 3 4 3 5 l3;
   tk OP (lit "(") 3 5 3 6 l3; tk OP (lit ")") 3 6 3 7 l3;
   tk OP (lit ":") 3 7 3 8 l3; tk NEWLINE nl 3 8 3 9 l3;
   EvRead;
   tk INDENT (lit "    ") 4 0 4 4 l4; tk NAME (lit "pass") 4 4 4 8 l4;
   tk NEWLINE nl 4 8 4 9 l4;
   EvRead;
   tk DEDENT [] 5 0 5 0 []; tk ENDMARKER [] 5 0 5 0 []].
Definition defs_file (name : str) : source_file :=
  SourceFile name defs_lines defs_events.

(** A world about to check [bracket_lines]. *)
Definition bracket_world : World :=
  Build_World (new_checker module_globals (bracket_file (lit "t.py"))) [].

(** The logical line [x = 1 + \\ \\ 2]: its middle physical line holds
    only the continuation backslash. *)
Definition backslash_lines : list str :=
  [lit "x = 1 + \" ++ nl; lit "\" ++ nl; lit "2" ++ nl].

Example backslash_equal_offsets :
  build_logical backslash_lines (1, 0) (3, 2) [] =
    Some ([(0, 1, 0); (8, 2, 0); (8, 3, 0)], lit "x = 1 + 2").
Proof. vm_compute. reflexivity. Qed.

(** The events of [foo(1,\n    2 )\n] before its final [NEWLINE]. *)
Definition bracket_pre : list event := firstn 9 bracket_stmt.
Definition bracket_newline : token := Tok NEWLINE nl (2, 7) (2, 8) (lit "    2 )" ++ nl).

(** The file [x = 1\n# c\n\nfoo(1,\n    2 )\n]: a comment line and a blank
    line before a call continued inside brackets. The events of its second
    statement, whose tokens start with the [COMMENT] and [NL] tokens of the
    comment line and the [NL] token of the blank line, and a world about to
    check that statement. *)
Definition lead_lines : list str :=
  [lit "x = 1" ++ nl; lit "# c" ++ nl; nl; lit "foo(1," ++ nl; lit "    2 )" ++ nl].
Definition lead_pre : list event :=
  [EvRead; EvTok (tok_of COMMENT (lit "# c") 2 0 2 3); EvTok (tok_of NL nl 2 3 2 4);
   EvRead; EvTok (tok_of NL nl 3 0 3 1);
   EvRead; EvTok (tok_of NAME (lit "foo") 4 0 4 3); EvTok (tok_of OP (lit "(") 4 3 4 4);
   EvTok (tok_of NUMBER (lit "1") 4 4 4 5); EvTok (tok_of OP (lit ",") 4 5 4 6);
   EvTok (tok_of NL nl 4 6 4 7);
   EvRead; EvTok (tok_of NUMBER (lit "2") 5 4 5 5); EvTok (tok_of OP (lit ")") 5 6 5 7)].
Definition lead_newline : token := tok_of NEWLINE nl 5 7 5 8.
Definition lead_world : World :=
  Build_World (new_checker module_globals (SourceFile (lit "t.py") lead_lines [])) [].

(** ** A tokenizer error inside a file *)

Lemma all_loop_token_error (o : Options) (pre post : list event) :
  forall start tokens parens w,
  exists w' e, all_loop o (pre ++ EvTokenError :: post) start tokens parens w = (w', inl e).
Proof.
  induction pre as [|ev pre IH]; intros start tokens parens w.
  - simpl. exists w, TokenError. reflexivity.
  - destruct ev as [|t|]; simpl.
    + unfold bind at 1. destruct (readline_check_physical o w) as [w1 [e|x]].
      * eauto.
      * apply IH.
    + destruct (_ && _).
      * unfold bind at 1. destruct (check_logical o _ _ _ w) as [w1 [e|x]].
        -- eauto.
        -- apply IH.
      * apply IH.
    + exists w, TokenError. reflexivity.
Qed.

Lemma all_loop_token_error_exact (o : Options) (pre post : list event) :
  forall start tokens parens w,
  all_loop o (pre ++ EvTokenError :: post) start tokens parens w
  = bind (all_loop o pre start tokens parens) (fun _ => raise TokenError) w.
Proof.
  induction pre as [|ev pre IH]; intros start tokens parens w.
  - reflexivity.
  - destruct ev as [|t|]; cbn [app all_loop].
    + rewrite bind_assoc. apply bind_ext. intros _ w'. apply IH.
    + destruct (_ && _).
      * rewrite bind_assoc. apply bind_ext. intros _ w'. apply IH.
      * apply IH.
    + reflexivity.
Qed.

Lemma check_all_token_error_exact (o : Options) (pre post : list event) (w : World) :
  check_all o (pre ++ EvTokenError :: post) w
  = bind (check_all o pre) (fun _ => raise TokenError) w.
Proof.
  unfold check_all. rewrite !bind_assoc. apply bind_ext. intros _ w1.
  rewrite !bind_assoc. apply bind_ext. intros _ w2.
  rewrite !bind_assoc. apply bind_ext. intros _ w3.
  transitivity (bind (bind (all_loop o pre None [] 0) (fun _ => raise (A := unit) TokenError))
                  (fun _ => w <- get ;; ret (error_count (chk w))) w3).
  { unfold bind at 1 3. rewrite all_loop_token_error_exact. reflexivity. }
  rewrite !bind_assoc. apply bind_ext. intros _ w4. reflexivity.
Qed.

Lemma input_file_token_error_exact (o : Options) (g : list descr) (f : source_file)
    (pre post : list event) (w : World) :
  sf_events f = pre ++ EvTokenError :: post ->
  input_file o g f w = bind (input_file_upto o g f pre) (fun _ => raise TokenError) w.
Proof.
  intros Ef. unfold input_file, input_file_upto.
  rewrite !bind_assoc. apply bind_ext. intros _ w1.
  rewrite !bind_assoc. apply bind_ext. intros w0 w2.
  rewrite !bind_assoc. apply bind_ext. intros _ w3.
  rewrite Ef.
  transitivity (bind (bind (check_all o pre) (fun _ => raise (A := list (str * Z)) TokenError))
    (fun ec => (match testsuite o, ec with
                | _ :: _, [] => message (sf_name f ++ lit ": " ++ lit "no errors found")
                | _, _ => ret tt
                end) ;; ret ec) w3).
  { unfold bind at 1 3. rewrite check_all_token_error_exact. reflexivity. }
  rewrite !bind_assoc. apply bind_ext. intros _ w4. reflexivity.
Qed.

Lemma check_all_token_error (o : Options) (pre post : list event) (w : World) :
  exists w' e, check_all o (pre ++ EvTokenError :: post) w = (w', inl e).
Proof.
  unfold check_all. cbv [bind modify_chk get ret].
  match goal with
  | |- context [all_loop ?o' ?evs ?s ?t ?p ?w0] =>
      destruct (all_loop_token_error o' pre post s t p w0) as (w' & e & E);
      rewrite E
  end.
  eauto.
Qed.

Lemma input_file_token_error (o : Options) (g : list descr) (f : source_file)
    (pre post : list event) (w : World) :
  sf_events f = pre ++ EvTokenError :: post ->
  exists w' e, input_file o g f w = (w', inl e).
Proof.
  intros Ef. unfold input_file.
  set (m0 := if negb (verbose o =? 0) then message (lit "checking " ++ sf_name f) else ret tt).
  assert (H0 : exists w0, m0 w = (w0, inr tt)).
  { unfold m0. destruct (negb _); eexists; reflexivity. }
  destruct H0 as [w0 E0].
  unfold bind at 1. rewrite E0. unfold bind at 1, get. unfold bind at 1, put.
  rewrite Ef.
  destruct (check_all_token_error o pre post
              (Build_World (new_checker g f) (out w0))) as (w' & e & E).
  unfold bind at 1. rewrite E. eauto.
Qed.

(** ** Check discovery *)

Lemma insert_descr_in (d x : descr) (l : list descr) :
  In d (insert_descr x l) <-> x = d \/ In d l.
Proof.
  induction l as [|y l IH]; simpl.
  - tauto.
  - destruct (str_ltb (d_name y) (d_name x)); simpl; rewrite ?IH; tauto.
Qed.

Lemma sort_descrs_in (d : descr) (l : list descr) : In d (sort_descrs l) <-> In d l.
Proof.
  unfold sort_descrs. induction l as [|x l IH]; simpl.
  - tauto.
  - rewrite insert_descr_in, IH. tauto.
Qed.

Lemma find_checks_in (g : list descr) (d : descr) (prefix a0 : str) (rest : list str) :
  In d g -> d_args d = a0 :: rest -> startswith a0 prefix = true ->
  In d (find_checks g prefix).
Proof.
  intros Hin Ea Hs. unfold find_checks. apply sort_descrs_in.
  apply filter_In. split; [exact Hin|]. rewrite Ea. exact Hs.
Qed.

(** The file [x = (1,\n]: the bracket is never closed, and the standard
    tokenizer raises [TokenError] at the end of the file. *)
Definition unclosed_lines : list str := [lit "x = (1," ++ nl].
Definition unclosed_events : list event :=
  let l1 := nth 0 unclosed_lines [] in
  [EvRead;
   tk NAME (lit "x") 1 0 1 1 l1; tk OP (lit "=") 1 2 1 3 l1;
   tk OP (lit "(") 1 4 1 5 l1; tk NUMBER (lit "1") 1 5 1 6 l1;
   tk OP (lit ",") 1 6 1 7 l1; tk NL nl 1 7 1 8 l1;
   EvRead; EvTokenError].
Definition unclosed_file (name : str) : source_file :=
  SourceFile name unclosed_lines unclosed_events.

(** A logical-line check whose second argument names no attribute of a
    [Checker]. *)
Definition unknown_input_check : descr :=
  Descr (lit "unknown_input") [lit "logical_line"; lit "no_such_input"] []
    (fun _ st => inr (None, st)).

(** The file [x = 1 \n]. *)
Definition one_line_lines : list str := [lit "x = 1 " ++ nl].
Definition one_line_events : list event :=
  let l1 := nth 0 one_line_lines [] in
  [EvRead;
   tk NAME (lit "x") 1 0 1 1 l1; tk OP (lit "=") 1 2 1 3 l1;
   tk NUMBER (lit "1") 1 4 1 5 l1; tk NEWLINE nl 1 6 1 7 l1;
   EvRead; tk ENDMARKER [] 2 0 2 0 []].
Definition one_line_file (name : str) : source_file :=
  SourceFile name one_line_lines one_line_events.

(** The checker of [x = 1 \n] when its logical line has been built. *)
Definition one_line_world : World :=
  Build_World (with_logical (new_checker (module_globals ++ [unknown_input_check])
                               (one_line_file (lit "t.py"))) (lit "x = 1") 0) [].

(** Discharges a hypothesis quantified over the tokens of a concrete list. *)
Ltac by_tokens :=
  let t := fresh "t" in let Hin := fresh "Hin" in
  intros t Hin; repeat (destruct Hin as [<-|Hin]; [vm_compute; intros; try split; try discriminate|]);
  destruct Hin.

(** ** Inputs of the further properties *)

(** A checker on the second line of [testsuite/E22.py]. *)
Definition report_world : World :=
  Build_World (Build_Checker (lit "testsuite/E22.py") [lit "x = 1"; lit "y  = 2"] [] []
                 (Some 2) [] None None None None) [].

(** [options] with [quiet = 1]. *)
Definition quiet_options : Options := Build_Options 0 1 [] false false false [].

(** [options] with [show_source] set. *)
Definition source_options : Options := Build_Options 0 0 [] true false false [].

(** [options] with [testsuite] set. *)
Definition testsuite_options : Options :=
  Build_Options 0 0 [] false false false (lit "testsuite").

(** A logical line continued inside brackets. *)
Definition continued_lines : list str := [lit "x = (1,"; lit "     2)"].

(** A line indented with a space and then a tab. *)
Definition mixed_line : str := " "%char :: tab :: lit "x = 1".

(** The lines that follow [def f():] in a file without empty lines. *)
Definition def_lines : list (str * Z) :=
  [(lit "pass", 4); (lit "def g():", 0); (lit "pass", 4)].

(** A checker that has read the first line. *)
Definition reading_world : World :=
  Build_World (with_line_number (chk report_world) 1) [].

(** ** Lemmas for the further properties *)

Lemma find_aux_spec (sub s : str) (i : Z) :
  find_aux sub s i = -1 \/
  (i <= find_aux sub s i /\
   startswith (skipn (Z.to_nat (find_aux sub s i - i)) s) sub = true /\
   forall k, (k < Z.to_nat (find_aux sub s i - i))%nat -> startswith (skipn k s) sub = false).
Proof.
  revert i. induction s as [|c s IH]; intros i; cbn [find_aux].
  - destruct (startswith [] sub) eqn:E.
    + right. simpl. replace (i - i) with 0 by lia. simpl. split; [lia|]. split; [exact E|].
      intros k Hk. lia.
    + left. reflexivity.
  - destruct (startswith (c :: s) sub) eqn:E.
    + right. simpl. replace (i - i) with 0 by lia. simpl. split; [lia|]. split; [exact E|].
      intros k Hk. lia.
    + destruct (IH (i + 1)) as [H|(H1 & H2 & H3)]; [left; exact H|right].
      set (j := find_aux sub s (i + 1)) in *.
      replace (Z.to_nat (j - i)) with (S (Z.to_nat (j - (i + 1)))) by lia.
      split; [lia|]. split; [exact H2|].
      intros [|k] Hk; [exact E|]. simpl. apply H3. lia.
Qed.

Lemma find_from_spec (s sub : str) (start : Z) :
  0 <= start ->
  find_from s sub start = -1 \/
  (start <= find_from s sub start /\
   startswith (skipn (Z.to_nat (find_from s sub start)) s) sub = true /\
   forall k, (Z.to_nat start <= k < Z.to_nat (find_from s sub start))%nat ->
     startswith (skipn k s) sub = false).
Proof.
  intros Hs. unfold find_from.
  destruct (len s <? start) eqn:El; [left; reflexivity|].
  unfold py_drop, py_bound. destruct (start <? 0) eqn:E0; [lia|].
  replace (Z.of_nat (Z.to_nat start)) with start by lia.
  destruct (find_aux_spec sub (skipn (Z.to_nat start) s) start) as [H|(H1 & H2 & H3)];
    [left; exact H|right].
  set (j := find_aux sub (skipn (Z.to_nat start) s) start) in *.
  rewrite skipn_skipn in H2. replace (Z.to_nat (j - start) + Z.to_nat start)%nat
    with (Z.to_nat j) in H2 by lia.
  split; [lia|]. split; [exact H2|].
  intros k Hk. specialize (H3 (k - Z.to_nat start)%nat ltac:(lia)).
  rewrite skipn_skipn in H3. replace (k - Z.to_nat start + Z.to_nat start)%nat with k in H3
    by lia. exact H3.
Qed.

Lemma find_spec (s sub : str) :
  find s sub = -1 \/
  (0 <= find s sub /\
   startswith (skipn (Z.to_nat (find s sub)) s) sub = true /\
   forall k, (k < Z.to_nat (find s sub))%nat -> startswith (skipn k s) sub = false).
Proof.
  unfold find. destruct (find_from_spec s sub 0 ltac:(lia)) as [H|(H1 & H2 & H3)];
    [left; exact H|right].
  split; [exact H1|]. split; [exact H2|]. intros k Hk. apply H3. lia.
Qed.

Lemma startswith_cons_nth (s p : str) (c : ascii) (n : nat) :
  startswith (skipn n s) (c :: p) = true -> nth_error s n = Some c /\ startswith (skipn (S n) s) p = true.
Proof.
  revert s. induction n as [|n IH]; intros [|d s]; simpl; try discriminate.
  - intros H. apply andb_prop in H as [H1 H2]. apply Ascii.eqb_eq in H1. subst. auto.
  - intros H. apply IH. exact H.
Qed.

Lemma py_index_nth (s : str) (k : Z) : 0 <= k -> py_index s k = nth_error s (Z.to_nat k).
Proof.
  intros Hk. unfold py_index. destruct (k <? 0) eqn:E; [lia|].
  destruct (k <? 0) eqn:E'; [lia|]. reflexivity.
Qed.

(** [rstrip] of a concatenation. *)

Lemma rstrip_by_app (p : ascii -> bool) (a b : str) :
  rstrip_by p (a ++ b) =
  match rstrip_by p b with [] => rstrip_by p a | r => a ++ r end.
Proof.
  induction a as [|c a IH]; simpl.
  - destruct (rstrip_by p b); reflexivity.
  - rewrite IH. destruct (rstrip_by p b) as [|x r] eqn:Eb.
    + reflexivity.
    + destruct (a ++ x :: r) eqn:E; [destruct a; discriminate|]. reflexivity.
Qed.

Lemma rstrip_by_all (p : ascii -> bool) (b : str) :
  forallb p b = true -> rstrip_by p b = [].
Proof.
  induction b as [|c b IH]; simpl; [reflexivity|].
  intros H. apply andb_prop in H as [H1 H2]. rewrite IH by exact H2. rewrite H1. reflexivity.
Qed.

Lemma rstrip_by_last (p : ascii -> bool) (a : str) (c : ascii) :
  p c = false -> rstrip_by p (a ++ [c]) = a ++ [c].
Proof. intros H. rewrite rstrip_by_app. simpl. rewrite H. reflexivity. Qed.

Lemma startswith_app (a b : str) : startswith (a ++ b) a = true.
Proof.
  induction a as [|c a IH]; simpl; [destruct b; reflexivity|]. rewrite Ascii.eqb_refl. exact IH.
Qed.

Lemma endswith_app (a b : str) : endswith (a ++ b) b = true.
Proof. unfold endswith. rewrite rev_app_distr. apply startswith_app. Qed.

Lemma str_eqb_eq (a b : str) : str_eqb a b = true <-> a = b.
Proof. unfold str_eqb. destruct (list_eq_dec ascii_dec a b); split; congruence. Qed.

Lemma tab_not_space : tab <> " "%char.
Proof. discriminate. Qed.

Lemma get_indent_loop_count (line : str) :
  forall r, 0 <= r ->
  r + len (indent_match line) <= get_indent_loop line r /\
  (~ In tab (indent_match line) -> get_indent_loop line r = r + len (indent_match line)).
Proof.
  induction line as [|c line IH]; intros r Hr; cbn [indent_match get_indent_loop].
  - unfold len; simpl. lia.
  - destruct (Ascii.eqb c tab) eqn:Et.
    + apply Ascii.eqb_eq in Et. subst c.
      rewrite ?Ascii.eqb_refl, orb_true_r. cbv beta iota.
      assert (Hd : r + 1 <= r / 8 * 8 + 8).
      { pose proof (Z.mod_pos_bound r 8 ltac:(lia)). pose proof (Z.div_mod r 8 ltac:(lia)). lia. }
      destruct (IH (r / 8 * 8 + 8) ltac:(lia)) as [H1 _].
      split.
      * unfold len in *. cbn [length]. lia.
      * intros H. exfalso. apply H. left. reflexivity.
    + destruct (Ascii.eqb c " "%char) eqn:Es; cbv beta iota.
      * cbn [orb]. destruct (IH (r + 1) ltac:(lia)) as [H1 H2].
        unfold len in *. cbn [length]. split; [lia|].
        intros H. rewrite H2; [lia|]. intros H'. apply H. right. exact H'.
      * cbn [orb]. unfold len; simpl. split; [lia|]. intros _. lia.
Qed.

Lemma get_indent_loop_app (p s : str) (r : Z) :
  Forall is_blank p -> get_indent_loop (p ++ s) r = get_indent_loop s (get_indent_loop p r).
Proof.
  intros Hp. revert r. induction Hp as [|c p Hc Hp IH]; intros r; [reflexivity|].
  destruct Hc as [-> | ->]; simpl; apply IH.
Qed.

Lemma get_indent_loop_stop (s : str) (r : Z) :
  (s = [] \/ exists c s', s = c :: s' /\ ~ is_blank c) -> get_indent_loop s r = r.
Proof.
  intros [->|(c & s' & -> & Hc)]; [reflexivity|]. simpl.
  destruct (Ascii.eqb c tab) eqn:Et.
  - apply Ascii.eqb_eq in Et. exfalso. apply Hc. right. exact Et.
  - destruct (Ascii.eqb c " "%char) eqn:Es; [|reflexivity].
    apply Ascii.eqb_eq in Es. exfalso. apply Hc. left. exact Es.
Qed.

Lemma py_split_nonempty (sep : ascii) (s : str) : py_split sep s <> [].
Proof.
  destruct s as [|c s]; simpl; [discriminate|].
  destruct (Ascii.eqb c sep); [discriminate|]. destruct (py_split sep s); discriminate.
Qed.

Lemma py_join_cons (sep c : ascii) (p : str) (ps : list str) :
  py_join sep ((c :: p) :: ps) = c :: py_join sep (p :: ps).
Proof. destruct ps; reflexivity. Qed.

Lemma py_split_last (sep : ascii) (s : str) :
  exists q qs, py_split sep (s ++ [sep]) = q :: qs ++ [[]].
Proof.
  induction s as [|c s IH]; simpl.
  - rewrite Ascii.eqb_refl. exists [], []. reflexivity.
  - destruct IH as (q & qs & E). rewrite E. destruct (Ascii.eqb c sep).
    + exists [], (q :: qs). reflexivity.
    + exists (c :: q), qs. reflexivity.
Qed.

Lemma dict_get_incr (d : list (str * Z)) (key k : str) (n : Z) :
  dict_get (dict_incr d key n) k = dict_get d k + (if str_eqb key k then n else 0).
Proof.
  induction d as [|[k0 v] d IH]; simpl.
  - destruct (str_eqb key k); lia.
  - destruct (str_eqb k0 key) eqn:E0.
    + apply str_eqb_eq in E0. subst k0. simpl. destruct (str_eqb key k); lia.
    + simpl. destruct (str_eqb k0 k) eqn:E1; [|exact IH].
      apply str_eqb_eq in E1. subst k0.
      destruct (str_eqb key k) eqn:E2; [|lia].
      apply str_eqb_eq in E2. subst key. rewrite (proj2 (str_eqb_eq k k) eq_refl) in E0.
      discriminate.
Qed.

Lemma dict_incr_keys (d : list (str * Z)) (key : str) (n : Z) (k : str) :
  In k (map fst (dict_incr d key n)) <-> k = key \/ In k (map fst d).
Proof.
  induction d as [|[k0 v] d IH]; simpl.
  - intuition congruence.
  - destruct (str_eqb k0 key) eqn:E0.
    + apply str_eqb_eq in E0. subst k0. simpl. intuition congruence.
    + simpl. rewrite IH. tauto.
Qed.

Lemma dict_incr_nodup (d : list (str * Z)) (key : str) (n : Z) :
  NoDup (map fst d) -> NoDup (map fst (dict_incr d key n)).
Proof.
  induction d as [|[k0 v] d IH]; simpl; intros H.
  - constructor; [intros []|constructor].
  - inversion H as [|x l Hx Hd]; subst.
    destruct (str_eqb k0 key) eqn:E0; simpl.
    + constructor; assumption.
    + constructor; [|apply IH; exact Hd].
      rewrite dict_incr_keys. intros [E|E]; [|contradiction].
      subst k0. rewrite (proj2 (str_eqb_eq key key) eq_refl) in E0. discriminate.
Qed.

Lemma dict_get_absent (d : list (str * Z)) (k : str) :
  ~ In k (map fst d) -> dict_get d k = 0.
Proof.
  induction d as [|[k0 v] d IH]; simpl; intros H; [reflexivity|].
  destruct (str_eqb k0 k) eqn:E.
  - apply str_eqb_eq in E. subst. exfalso. apply H. left. reflexivity.
  - apply IH. intros H'. apply H. right. exact H'.
Qed.

Lemma add_error_count_get_aux (fe : list (str * Z)) :
  NoDup (map fst fe) ->
  forall ec k, dict_get (add_error_count ec fe) k = dict_get ec k + dict_get fe k.
Proof.
  unfold add_error_count. induction fe as [|[c n] fe IH]; intros Hn ec k; simpl.
  - lia.
  - inversion Hn as [|x l Hx Hd]; subst.
    rewrite IH by exact Hd. rewrite dict_get_incr.
    destruct (str_eqb c k) eqn:E; [|lia].
    apply str_eqb_eq in E. subst c. rewrite (dict_get_absent fe k Hx). lia.
Qed.

Lemma rfind_char_go (s : str) (c : ascii) : rfind_char s c = rfind_go c s 0 (-1).
Proof.
  unfold rfind_char. generalize 0 (-1).
  induction s as [|d s IH]; intros i best; simpl; [reflexivity|]. apply IH.
Qed.

Lemma rfind_go_absent (c : ascii) (l : str) (i best : Z) :
  ~ In c l -> rfind_go c l i best = best.
Proof.
  revert i best. induction l as [|d l IH]; intros i best H; simpl; [reflexivity|].
  destruct (Ascii.eqb d c) eqn:E.
  - apply Ascii.eqb_eq in E. subst. exfalso. apply H. left. reflexivity.
  - apply IH. intros H'. apply H. right. exact H'.
Qed.

Lemma rfind_go_app (c : ascii) (a b : str) (i best : Z) :
  rfind_go c (a ++ b) i best = rfind_go c b (i + len a) (rfind_go c a i best).
Proof.
  revert i best. induction a as [|d a IH]; intros i best; simpl.
  - unfold len; simpl. f_equal. lia.
  - rewrite IH. f_equal. unfold len; simpl. lia.
Qed.

Lemma rfind_char_last (a b : str) (c : ascii) :
  ~ In c b -> rfind_char (a ++ c :: b) c = len a.
Proof.
  intros H. rewrite rfind_char_go, rfind_go_app. simpl. rewrite Ascii.eqb_refl.
  rewrite rfind_go_absent by exact H. lia.
Qed.

Lemma digits_aux_digits (fuel : nat) :
  forall n acc, Forall is_digit acc -> Forall is_digit (digits_aux fuel n acc).
Proof.
  induction fuel as [|fuel IH]; intros n acc H; simpl; [exact H|].
  assert (Hd : is_digit (ascii_of_N (48 + n mod 10))).
  { unfold is_digit. pose proof (N.mod_lt n 10 ltac:(discriminate)).
    set (k := (n mod 10)%N) in *. rewrite N_ascii_embedding by lia. lia. }
  destruct (n <? 10)%N; [constructor; assumption|]. apply IH. constructor; assumption.
Qed.

Lemma z_str_digits (n : Z) : 0 <= n -> Forall is_digit (z_str n).
Proof.
  intros Hn. unfold z_str. destruct (n <? 0) eqn:E; [lia|]. apply digits_aux_digits. constructor.
Qed.

Lemma paren_not_digit : ~ is_digit "("%char.
Proof. unfold is_digit. simpl. lia. Qed.

Lemma py_take_len (a b : str) : py_take (len a) (a ++ b) = a.
Proof.
  unfold py_take, py_bound.
  replace (len a <? 0) with false by (symmetry; apply Z.ltb_ge; apply len_nonneg).
  unfold len. rewrite Nat2Z.id. rewrite firstn_app, firstn_all, Nat.sub_diag. simpl.
  apply app_nil_r.
Qed.

(** The count key of a message ending in a parenthesized number. *)

Lemma count_text_of_value (a b : str) (n : Z) :
  0 <= n -> ~ In "("%char b -> endswith (a ++ ("("%char :: z_str n ++ b)) (lit ")") = true ->
  count_text_of (a ++ ("("%char :: z_str n ++ b)) = rstrip a.
Proof.
  intros Hn Hb He. unfold count_text_of. rewrite He.
  rewrite rfind_char_last.
  - replace (-1 <? len a) with true by (symmetry; apply Z.ltb_lt; pose proof (len_nonneg a); lia).
    rewrite py_take_len. reflexivity.
  - intros H. apply in_app_or in H as [H|H]; [|contradiction].
    pose proof (z_str_digits n Hn) as Hd. rewrite Forall_forall in Hd.
    exact (paren_not_digit (Hd _ H)).
Qed.

Lemma first_other_spec (c : ascii) (s : str) :
  forall i,
  match first_other c s i with
  | None => Forall (eq c) s
  | Some j => i <= j /\ firstn (Z.to_nat (j - i)) s = repeat c (Z.to_nat (j - i)) /\
              exists d, nth_error s (Z.to_nat (j - i)) = Some d /\ d <> c
  end.
Proof.
  induction s as [|d s IH]; intros i; simpl; [constructor|].
  destruct (Ascii.eqb d c) eqn:E.
  - apply Ascii.eqb_eq in E. subst d. specialize (IH (i + 1)).
    destruct (first_other c s (i + 1)) as [j|].
    + destruct IH as (H1 & H2 & d & H3 & H4).
      replace (Z.to_nat (j - i)) with (S (Z.to_nat (j - (i + 1)))) by lia.
      split; [lia|]. split; [simpl; f_equal; exact H2|]. exists d. split; assumption.
    + constructor; [reflexivity|exact IH].
  - replace (Z.to_nat (i - i)) with O by lia. split; [lia|]. split; [reflexivity|].
    exists d. split; [reflexivity|]. intros ->. rewrite Ascii.eqb_refl in E. discriminate.
Qed.

Lemma first_index_spec (c : ascii) (s : str) :
  forall i,
  match first_index c s i with
  | None => ~ In c s
  | Some j => i <= j /\ nth_error s (Z.to_nat (j - i)) = Some c /\
              ~ In c (firstn (Z.to_nat (j - i)) s)
  end.
Proof.
  induction s as [|d s IH]; intros i; simpl; [tauto|].
  destruct (Ascii.eqb d c) eqn:E.
  - apply Ascii.eqb_eq in E. subst d. replace (Z.to_nat (i - i)) with O by lia.
    split; [lia|]. split; [reflexivity|]. intros [].
  - specialize (IH (i + 1)). destruct (first_index c s (i + 1)) as [j|].
    + destruct IH as (H1 & H2 & H3).
      replace (Z.to_nat (j - i)) with (S (Z.to_nat (j - (i + 1)))) by lia.
      split; [lia|]. split; [exact H2|]. simpl. intros [H|H]; [|contradiction].
      subst d. rewrite Ascii.eqb_refl in E. discriminate.
    + intros [H|H]; [|contradiction]. subst d. rewrite Ascii.eqb_refl in E. discriminate.
Qed.

Lemma indent_match_blank (s : str) : Forall is_blank (indent_match s).
Proof.
  induction s as [|c s IH]; simpl; [constructor|].
  destruct (Ascii.eqb c " "%char) eqn:E1.
  - apply Ascii.eqb_eq in E1. constructor; [left; exact E1|exact IH].
  - destruct (Ascii.eqb c tab) eqn:E2; simpl; [|constructor].
    apply Ascii.eqb_eq in E2. constructor; [right; exact E2|exact IH].
Qed.

Lemma blanks_without_tab (l : str) :
  Forall is_blank l -> ~ In tab l -> l = repeat " "%char (length l).
Proof.
  induction 1 as [|c l Hc Hl IH]; intros Ht; [reflexivity|]. simpl.
  destruct Hc as [->| ->]; [|exfalso; apply Ht; left; reflexivity].
  f_equal. apply IH. intros H. apply Ht. right. exact H.
Qed.

Lemma rstrip_app_blanks (a ws : str) :
  Forall is_blank ws -> rstrip (a ++ ws) = rstrip a.
Proof.
  intros H. unfold rstrip. rewrite rstrip_by_app, rstrip_by_all; [reflexivity|].
  apply forallb_forall. intros x Hx. rewrite Forall_forall in H.
  destruct (H x Hx) as [->| ->]; reflexivity.
Qed.

Lemma tabs_or_spaces_char (l : str) (st : State) :
  st_indent_char (snd (tabs_or_spaces l st)) =
  match st_indent_char st with Some c => Some c | None => hd_error (indent_match l) end.
Proof.
  unfold tabs_or_spaces. destruct (indent_match l) as [|c0 r].
  - simpl. destruct (st_indent_char st); reflexivity.
  - destruct (st_indent_char st) as [c|] eqn:E; cbv beta iota zeta.
    + destruct (first_other c (c0 :: r) 0); exact E.
    + destruct (first_other c0 (c0 :: r) 0); reflexivity.
Qed.

Lemma Forall_firstn' {A} (P : A -> Prop) (l : list A) (n : nat) :
  Forall P l -> Forall P (firstn n l).
Proof.
  revert l. induction n as [|n IH]; intros l H; [constructor|].
  destruct H; simpl; constructor; auto.
Qed.

Lemma rstrip_char_drop (x : ascii) (a : str) :
  rstrip_char x (a ++ [x]) = rstrip_char x a.
Proof. unfold rstrip_char. rewrite rstrip_by_app. simpl. rewrite Ascii.eqb_refl. reflexivity. Qed.

Lemma rstrip_char_keep (x d : ascii) (a : str) :
  Ascii.eqb d x = false -> rstrip_char x (a ++ [d]) = a ++ [d].
Proof. intros H. unfold rstrip_char. apply rstrip_by_last. exact H. Qed.

Lemma not_ws_neq (c x : ascii) : is_ws c = false -> is_ws x = true -> Ascii.eqb c x = false.
Proof.
  intros Hc Hx. destruct (Ascii.eqb c x) eqn:E; [|reflexivity].
  apply Ascii.eqb_eq in E. subst. congruence.
Qed.

Lemma py_take_4 (a b c d : ascii) (r : str) : py_take 4 (a :: b :: c :: d :: r) = [a; b; c; d].
Proof. reflexivity. Qed.

Lemma blank_lines_nonempty_step (l : str) (st : State) (il : Z) :
  l <> [] -> st_blank_lines st = Some 0 ->
  blank_lines l st il = (def_line_finding l il, set_blank_lines st 0).
Proof.
  intros Hl Hs. unfold blank_lines, def_line_finding. rewrite Hs.
  destruct l as [|c r]; [contradiction|]. cbv zeta. simpl negb.
  rewrite andb_true_r.
  destruct (startswith (c :: r) (lit "def ")); [|reflexivity].
  destruct (0 <? il); [reflexivity|]. destruct (il =? 0); reflexivity.
Qed.

Lemma blank_lines_run_zero (ls : list (str * Z)) :
  Forall (fun p => fst p <> []) ls ->
  forall st, st_blank_lines st = Some 0 ->
  fst (blank_lines_run ls st) = map (fun '(l, il) => def_line_finding l il) ls.
Proof.
  induction 1 as [|[l il] ls Hl Hls IH]; intros st Hs; [reflexivity|].
  simpl. rewrite (blank_lines_nonempty_step l st il Hl Hs).
  specialize (IH (set_blank_lines st 0) eq_refl).
  destruct (blank_lines_run ls (set_blank_lines st 0)). simpl in *. rewrite IH. reflexivity.
Qed.

Lemma find_hit (s : str) (a : ascii) (p : str) :
  (-1 <? find s (a :: p)) = true ->
  0 <= find s (a :: p) /\ py_index s (find s (a :: p)) = Some a /\
  startswith (skipn (S (Z.to_nat (find s (a :: p)))) s) p = true.
Proof.
  intros E. apply Z.ltb_lt in E.
  destruct (find_spec s (a :: p)) as [H|(H1 & H2 & H3)]; [lia|].
  apply startswith_cons_nth in H2 as [H2 H4].
  split; [exact H1|]. rewrite py_index_nth by exact H1. split; assumption.
Qed.

Lemma find_hit2 (s : str) (a b : ascii) :
  (-1 <? find s [a; b]) = true ->
  0 <= find s [a; b] /\ py_index s (find s [a; b]) = Some a /\
  py_index s (find s [a; b] + 1) = Some b.
Proof.
  intros E. destruct (find_hit s a [b] E) as (H1 & H2 & H3).
  apply (startswith_cons_nth s [] b) in H3 as [H3 _].
  split; [exact H1|]. split; [exact H2|]. rewrite py_index_nth by lia.
  replace (Z.to_nat (find s [a; b] + 1)) with (S (Z.to_nat (find s [a; b]))) by lia. exact H3.
Qed.

Lemma py_index_in_range (s : str) (k : Z) :
  - len s <= k < len s -> py_index s k <> None.
Proof.
  intros H. unfold py_index.
  set (j := if k <? 0 then len s + k else k).
  assert (Hj : 0 <= j < len s)
    by (unfold j; destruct (k <? 0) eqn:E; [apply Z.ltb_lt in E|apply Z.ltb_ge in E]; lia).
  replace (j <? 0) with false by (symmetry; apply Z.ltb_ge; lia).
  apply nth_error_Some. unfold len in *. lia.
Qed.

Lemma py_index_len (s : str) (k : Z) (c : ascii) : py_index s k = Some c -> 0 <= k -> k < len s.
Proof.
  intros H Hk. rewrite py_index_nth in H by exact Hk.
  assert (Z.to_nat k < length s)%nat by (apply nth_error_Some; rewrite H; discriminate).
  unfold len. lia.
Qed.

Lemma last_token_match_some (c : ascii) (r : str) :
  is_ws c = false -> last_token_match (c :: r) <> None.
Proof.
  intros Hc. unfold last_token_match.
  assert (Hr : rstrip (c :: r) <> []).
  { unfold rstrip. simpl. destruct (rstrip_by is_ws r); [rewrite Hc|]; discriminate. }
  destruct (rev (rstrip (c :: r))) as [|d l] eqn:E.
  - apply (f_equal (@rev ascii)) in E. rewrite rev_involutive in E. contradiction.
  - destruct (is_word d); discriminate.
Qed.

Lemma py_take_head (c : ascii) (r : str) (k : Z) :
  1 <= k -> exists r', py_take k (c :: r) = c :: r'.
Proof.
  intros Hk. unfold py_take, py_bound.
  replace (k <? 0) with false by (symmetry; apply Z.ltb_ge; lia).
  replace (Z.to_nat k) with (S (Z.to_nat (k - 1))) by lia. simpl. eauto.
Qed.

Lemma find_from_hit2 (s : str) (a b : ascii) (start : Z) :
  0 <= start -> find_from s [a; b] start <> -1 ->
  start <= find_from s [a; b] start /\
  py_index s (find_from s [a; b] start) = Some a /\
  py_index s (find_from s [a; b] start + 1) = Some b.
Proof.
  intros Hs Hn. destruct (find_from_spec s [a; b] start Hs) as [H|(H1 & H2 & H3)];
    [contradiction|].
  apply startswith_cons_nth in H2 as [H2 H4]. apply (startswith_cons_nth s [] b) in H4 as [H4 _].
  split; [exact H1|]. rewrite !py_index_nth by lia. split; [exact H2|].
  replace (Z.to_nat (find_from s [a; b] start + 1))
    with (S (Z.to_nat (find_from s [a; b] start))) by lia. exact H4.
Qed.

Lemma find_hit_sw (s p : str) :
  (-1 <? find s p) = true ->
  0 <= find s p /\ startswith (skipn (Z.to_nat (find s p)) s) p = true.
Proof.
  intros H. apply Z.ltb_lt in H.
  destruct (find_spec s p) as [E|(A & B & _)]; [lia|]. auto.
Qed.

Lemma find_aux_miss (sub s : str) (i : Z) :
  0 <= i -> find_aux sub s i = -1 -> forall k, startswith (skipn k s) sub = false.
Proof.
  revert i. induction s as [|c s IH]; intros i Hi H k; cbn [find_aux] in H.
  - destruct (startswith [] sub) eqn:E; [lia|]. destruct k; exact E.
  - destruct (startswith (c :: s) sub) eqn:E; [lia|].
    destruct k as [|k]; [exact E|]. apply (IH (i + 1)); [lia|exact H].
Qed.

Lemma find_miss (s p : str) :
  find s p = -1 -> forall k, startswith (skipn k s) p = false.
Proof.
  unfold find, find_from. intros H k.
  replace (len s <? 0) with false in H by (symmetry; apply Z.ltb_ge; unfold len; lia).
  exact (find_aux_miss p (py_drop 0 s) (Z.of_nat (py_bound s 0)) ltac:(lia) H k).
Qed.

Lemma nth_error_startswith1 (s : str) (n : nat) (c : ascii) :
  nth_error s n = Some c -> startswith (skipn n s) [c] = true.
Proof.
  revert s. induction n as [|n IH]; intros [|d s] H; try discriminate.
  - injection H as ->. simpl. rewrite Ascii.eqb_refl. destruct s; reflexivity.
  - exact (IH s H).
Qed.

Lemma py_index_take4 (s : str) : py_index (py_take 4 s) 0 = hd_error s.
Proof. destruct s as [|a [|b [|d [|e s]]]]; reflexivity. Qed.

Lemma map_step_eq (offset : Z) (acc : option (Z * Z * Z)) (mo ln ind : Z) :
  map_step offset acc (mo, ln, ind) =
  if mo <=? offset then Some (ln, ind, offset - mo) else acc.
Proof. reflexivity. Qed.

Lemma map_offset_loop_cases (mapping : list seg) (offset : Z)
    (bound : option (Z * Z * Z)) :
  ((forall s, In s mapping -> offset < seg_offset s) /\
   map_offset_loop mapping offset bound = bound) \/
  (exists pre s post, mapping = pre ++ s :: post /\ seg_offset s <= offset /\
     (forall s', In s' post -> offset < seg_offset s') /\
     map_offset_loop mapping offset bound =
       Some (seg_line s, seg_indent s, offset - seg_offset s)).
Proof.
  unfold map_offset_loop. rewrite <- (rev_involutive mapping).
  induction (rev mapping) as [|s l IH]; cbn [rev].
  - left. split; [intros s []|reflexivity].
  - rewrite fold_left_app. cbn [fold_left].
    destruct s as [[mo ln] ind]. rewrite map_step_eq.
    destruct (mo <=? offset) eqn:E.
    + right. exists (rev l), (mo, ln, ind), []. apply Z.leb_le in E.
      split; [reflexivity|]. split; [exact E|]. split; [intros s' []|reflexivity].
    + apply Z.leb_gt in E. destruct IH as [[H1 H2]|(pre & s & post & H1 & H2 & H3 & H4)].
      * left. split; [|exact H2]. intros s Hs. apply in_app_or in Hs as [Hs|[<-|[]]].
        -- exact (H1 s Hs).
        -- exact E.
      * right. exists pre, s, (post ++ [(mo, ln, ind)]). rewrite H1, <- app_assoc.
        split; [reflexivity|]. split; [exact H2|]. split; [|rewrite <- H1; exact H4].
        intros s' Hs. apply in_app_or in Hs as [Hs|[<-|[]]]; [exact (H3 s' Hs)|exact E].
Qed.

(** * Theorems *)

(** C10: when no token on the line is a comment or a string, [mute_line]
    returns the line unchanged. *)
Theorem mute_line_identity (line : str) (n : Z) (tokens : list token) :
  (forall t, In t tokens -> overlaps n t = true ->
     tok_kind t <> COMMENT /\ tok_kind t <> STRING) ->
  mute_line line n tokens = line.
Proof.
  revert line. induction tokens as [|t ts IH]; intros line H; [reflexivity|].
  rewrite mute_line_cons.
  assert (E : mute_token n line t = line).
  { unfold mute_token. destruct (overlaps n t) eqn:O; [|reflexivity].
    destruct (H t (or_introl eq_refl) O) as [H1 H2].
    destruct (tok_kind t); congruence. }
  rewrite E. apply IH. intros u Hu. apply H. right. exact Hu.
Qed.

Lemma mute_line_identity_witness :
  (forall t, In t ex_code_tokens -> overlaps 1 t = true ->
     tok_kind t <> COMMENT /\ tok_kind t <> STRING) /\
  mute_line ex_code_line 1 ex_code_tokens = ex_code_line.
Proof.
  assert (H : forall t, In t ex_code_tokens -> overlaps 1 t = true ->
     tok_kind t <> COMMENT /\ tok_kind t <> STRING) by by_tokens.
  split; [exact H | apply (mute_line_identity ex_code_line 1 ex_code_tokens H)].
Defined.

(** C6: when the tokens of a line involve string filling only (no comment
    token on the line, every string filling a range of the line), and in
    particular when the line holds a single string literal, [mute_line]
    preserves the length of the line. *)
Theorem mute_line_length (line : str) (n : Z) (tokens : list token) :
  (forall t, In t tokens -> overlaps n t = true -> tok_kind t <> COMMENT) ->
  string_tokens_fit n line tokens \/ only_string_literal n line tokens ->
  length (mute_line line n tokens) = length line.
Proof.
  intros Hc [Hf|Ho].
  - apply mute_line_length_fit; assumption.
  - apply mute_line_length_fit; [assumption|]. apply only_literal_fits. exact Ho.
Qed.

Lemma mute_line_length_witness :
  only_string_literal 3 ex_string_line ex_string_tokens /\
  length (mute_line ex_string_line 3 ex_string_tokens) = length ex_string_line.
Proof.
  assert (Hc : forall t, In t ex_string_tokens -> overlaps 3 t = true ->
                 tok_kind t <> COMMENT) by by_tokens.
  assert (Ho : only_string_literal 3 ex_string_line ex_string_tokens).
  { exists (lit "    "), ([dq] ++ lit "abc" ++ [dq]), ex_string_line.
    split; [reflexivity|]. split; [vm_compute; lia|]. split; [vm_compute; discriminate|].
    intros t Hin O K.
    destruct Hin as [<-|[<-|[<-|[]]]]; try discriminate; reflexivity. }
  split; [exact Ho|].
  apply (mute_line_length ex_string_line 3 ex_string_tokens Hc (or_intror Ho)).
Defined.

(** C5: the segments recorded for a logical line have non-decreasing
    offsets, the first one at offset 0 and none beyond the end of the
    logical line, so the ranges between consecutive offsets do not
    overlap (a range is empty when a physical line contributes nothing,
    as a line holding only a continuation backslash); and [check_logical]
    sets [indent_level] to the indent of the first segment before it runs
    the logical checks. *)
Theorem logical_segments_ordered (o : Options) (w0 : World) (start end_ : Z * Z)
    (tokens : list token) (mapping : list seg) (logical : str) :
  build_logical (lines (chk w0)) start end_ tokens = Some (mapping, logical) ->
  StronglySorted Z.le (map seg_offset mapping) /\
  Forall (fun s => seg_offset s <= len logical) mapping /\
  forall s0 rest, mapping = s0 :: rest ->
    seg_offset s0 = 0 /\
    check_logical o start end_ tokens w0 =
      (modify_chk (fun c => with_logical c logical (seg_indent s0)) ;;
       w <- get ;;
       logical_loop o mapping (logical_checks (chk w)) None) w0.
Proof.
  intros E.
  assert (I : builder_inv (mapping, logical)).
  { eapply build_loop_inv; [|exact E]. simpl. split; [constructor|]. split; [constructor|reflexivity]. }
  destruct I as (Hs & Hf & Hh). split; [exact Hs|]. split; [exact Hf|].
  intros s0 rest ->. split; [exact Hh|].
  apply check_logical_unfold. exact E.
Qed.

Lemma logical_segments_ordered_witness :
  build_logical (lines (chk bracket_world)) (1, 0) (2, 8) bracket_tokens
    = Some ([(0, 1, 0); (7, 2, 4)], lit "foo(1, 2 )") /\
  StronglySorted Z.le (map seg_offset [(0, 1, 0); (7, 2, 4)]).
Proof.
  assert (E : build_logical (lines (chk bracket_world)) (1, 0) (2, 8) bracket_tokens
    = Some ([(0, 1, 0); (7, 2, 4)], lit "foo(1, 2 )")) by (vm_compute; reflexivity).
  split; [exact E|].
  exact (proj1 (logical_segments_ordered default_options bracket_world (1, 0) (2, 8)
                  bracket_tokens _ _ E)).
Defined.

(** C1 (a divergence): for [foo(1,\n    2 )\n] the check
    [extraneous_whitespace] reports offset 8 of the logical line
    [foo(1, 2 )]; [check_logical] selects the segment of line 2 (offset 7,
    indent 4) but reports [8 - 7 = 1], dropping the indent it computes, so
    the finding is printed at column 2 instead of [8 - 7 + 4 = 5]
    (column 6); the first character of line 2, at logical offset 7, maps to
    column 0, not to its indent 4. *)
Theorem offset_mapping_drops_indent :
  extraneous_whitespace (lit "foo(1, 2 )") = inr (Some (8, lit "E202 whitespace before ')'")) /\
  map_offset_loop [(0, 1, 0); (7, 2, 4)] 8 None = Some (2, 4, 1) /\
  map_offset_loop [(0, 1, 0); (7, 2, 4)] 7 None = Some (2, 4, 0) /\
  out (fst (run (input_file default_options module_globals (bracket_file (lit "t.py")))
                start_world))
    = [lit "t.py:2:2: E202 whitespace before ')'"].
Proof. vm_compute. repeat split; reflexivity. Qed.

(** C8 (as the code behaves): for [if True:\n    x = 1  \n] the check
    [trailing_whitespace] reports line 2 at offset 9, the length of
    [    x = 1], and [report_error] prints it at the 1-based column
    [9 + 1 = 10]; it is the only finding of the file. *)
Theorem trailing_whitespace_scenario (name : str) :
  trailing_whitespace (nth 1 trailing_lines []) = Some (9, lit "W291 trailing whitespace") /\
  len (lit "    x = 1") = 9 /\
  out (fst (run (input_file default_options module_globals (trailing_file name))
                start_world))
    = [name ++ lit ":2:10: W291 trailing whitespace"].
Proof. split; [reflexivity|]. split; [reflexivity|]. vm_compute. reflexivity. Qed.

Lemma trailing_whitespace_column_not_9 :
  out (fst (run (input_file default_options module_globals (trailing_file (lit "t.py")))
                start_world))
    = [lit "t.py:2:10: W291 trailing whitespace"] /\
  ~ In (lit "t.py:2:9: W291 trailing whitespace")
       (out (fst (run (input_file default_options module_globals
                         (trailing_file (lit "t.py"))) start_world))).
Proof.
  assert (E : out (fst (run (input_file default_options module_globals
                    (trailing_file (lit "t.py"))) start_world))
              = [lit "t.py:2:10: W291 trailing whitespace"]) by (vm_compute; reflexivity).
  split; [exact E|]. rewrite E. vm_compute. intros [H|[]]. discriminate H.
Qed.

(** C9: for [def f():\n    pass\ndef g():\n    pass\n], with every
    check of the module, the only finding is the one of [blank_lines] on
    the second [def] (line 3): expected 2 blank lines, found 0; the first
    [def] is exempt as the first logical line of the file. *)
Theorem blank_lines_scenario (name : str) :
  blank_lines (lit "def f():") empty_state 0 = (None, set_blank_lines empty_state 0) /\
  out (fst (run (input_file default_options module_globals (defs_file name)) start_world))
    = [name ++ lit ":3:1: E302 expected 2 blank lines, found 0"] /\
  snd (run (input_file default_options module_globals (defs_file name)) start_world)
    = inr [(lit "E302 expected 2 blank lines, found 0", 1)].
Proof. split; [reflexivity|]. split; vm_compute; reflexivity. Qed.

(** C2 (as the code behaves): a finding whose code is matched by an
    ignore entry is never printed as a finding, under every [quiet],
    [verbose], [show_source], [show_pep8] and [testsuite] setting:
    [report_error] prints at most the file name (when [quiet] is 1 and the
    file has no finding counted yet). The finding is still counted under
    its message without the parenthesized value. *)
Theorem ignored_finding_not_printed (o : Options) (w : World) (n offset : Z)
    (text : str) (d : descr) :
  ignore_code o (py_take 4 text) = true ->
  out (fst (report_error o n offset text d w))
    = out w ++ (if (quiet o =? 1) && (match error_count (chk w) with [] => true | _ => false end)
                then [filename (chk w)] else []) /\
  error_count (chk (fst (report_error o n offset text d w)))
    = dict_incr (error_count (chk w)) (count_text_of text) 1.
Proof.
  intros Hig.
  unfold report_error.
  set (code := py_take 4 text) in *. set (ct := count_text_of text).
  unfold bind, get, ret, message, modify_chk, lift_opt, raise.
  repeat (simpl; match goal with
         | |- context [ignore_code o code] => rewrite Hig
         | |- context [if ?b then _ else _] => destruct b
         | |- context [match ?x with Some _ => _ | None => _ end] => destruct x
         | |- context [match ?x with [] => _ | _ :: _ => _ end] => destruct x
         end); rewrite ?app_nil_r; split; reflexivity.
Qed.

(** The options [--ignore E5 --show-source --show-pep8], and with [-q]. *)
Definition ignore_e5_options : Options :=
  Build_Options 0 0 [lit "E5"] true true false [].
Definition ignore_e5_quiet_options : Options :=
  Build_Options 0 1 [lit "E5"] false false false [].

Definition long_line_text : str := lit "E501 line too long (85 characters)".

Lemma ignored_finding_not_printed_witness :
  ignore_code ignore_e5_options (py_take 4 long_line_text) = true /\
  out (fst (report_error ignore_e5_options 1 79 long_line_text
              maximum_line_length_check
              bracket_world))
    = out bracket_world ++ [] /\
  error_count (chk (fst (report_error ignore_e5_options 1 79 long_line_text
              maximum_line_length_check
              bracket_world)))
    = dict_incr (error_count (chk bracket_world)) (count_text_of long_line_text) 1.
Proof.
  assert (H : ignore_code ignore_e5_options (py_take 4 long_line_text) = true)
    by (vm_compute; reflexivity).
  split; [exact H|].
  exact (ignored_finding_not_printed ignore_e5_options bracket_world 1 79 long_line_text _ H).
Defined.

(** An ignored [E501] finding is counted under [E501 line too long], and
    with [-q] the file name is printed for it. *)
Lemma ignored_finding_counted :
  error_count (chk bracket_world) = [] /\
  error_count (chk (fst (report_error ignore_e5_options 1 79 long_line_text
              maximum_line_length_check
              bracket_world)))
    = [(lit "E501 line too long", 1)] /\
  out (fst (report_error ignore_e5_quiet_options 1 79 long_line_text
              maximum_line_length_check
              bracket_world))
    = [lit "t.py"].
Proof. vm_compute. repeat split; reflexivity. Qed.

Lemma rstrip_by_prefix (p : ascii -> bool) (x : str) : exists s, rstrip_by p x ++ s = x.
Proof.
  induction x as [|c r IH]; [exists []; reflexivity|].
  destruct IH as [s Es]. simpl. destruct (rstrip_by p r) as [|a r'] eqn:E.
  - destruct (p c); [exists (c :: r)|exists r]; reflexivity.
  - exists s. rewrite <- Es. reflexivity.
Qed.

Lemma firstn_ws_prefix (x s ws rest : str) (k : nat) :
  x ++ s = ws ++ rest -> Forall (fun y => is_ws y = true) ws -> (k <= length ws)%nat ->
  forallb is_ws (firstn k x) = true.
Proof.
  revert s ws k. induction x as [|a x IH]; intros s ws k E Hw Hk.
  - destruct k; reflexivity.
  - destruct k; [reflexivity|].
    destruct ws as [|b ws]; [simpl in Hk; lia|].
    simpl in E. injection E as -> E. inversion Hw as [|? ? Hb Hw']; subst.
    simpl. rewrite Hb. simpl. apply (IH s ws k E Hw'). simpl in Hk. lia.
Qed.

Lemma forallb_ws_Forall (l : str) :
  Forall (fun y => is_ws y = true) l -> forallb is_ws l = true.
Proof. induction 1; simpl; [reflexivity|]. rewrite H. exact IHForall. Qed.

(** Muting a row that is blank or a comment line: once a comment token of
    the row has been met the row is empty, and before that it is a prefix
    of the row. *)
Lemma mute_line_blank_row (r : Z) (ws rest : str) (tokens : list token) :
  Forall (fun x => is_ws x = true) ws ->
  (forall t, In t tokens -> overlaps r t = true ->
     tok_kind t <> STRING /\ (tok_kind t = COMMENT -> 0 <= snd (tok_start t) <= len ws)) ->
  forall L, (L = [] \/ exists s, L ++ s = ws ++ rest) ->
  (mute_line L r tokens = [] \/ exists s, mute_line L r tokens ++ s = ws ++ rest) /\
  ((L = [] \/ exists t, In t tokens /\ tok_kind t = COMMENT /\ overlaps r t = true) ->
   mute_line L r tokens = []).
Proof.
  intros Hw. induction tokens as [|t ts IH]; intros Ht L HL.
  - split; [exact HL|]. intros [->|(t & [] & _)]. reflexivity.
  - rewrite mute_line_cons.
    assert (Ht' : forall u, In u ts -> overlaps r u = true ->
              tok_kind u <> STRING /\ (tok_kind u = COMMENT -> 0 <= snd (tok_start u) <= len ws))
      by (intros u Hu; apply Ht; right; exact Hu).
    unfold mute_token at 1 2 3.
    destruct (overlaps r t) eqn:O.
    + destruct (Ht t (or_introl eq_refl) O) as [Hs Hc].
      destruct (tok_kind t) eqn:K; try (destruct (IH Ht' L HL) as [IH1 IH2];
        split; [exact IH1|]; intros [HL0|(u & [<-|Hu] & Ku & Ou)];
        [apply IH2; left; exact HL0|congruence|apply IH2; right; eauto]).
      * exfalso. apply Hs. reflexivity.
      * assert (E0 : rstrip (py_take (snd (tok_start t)) L) = []).
        { destruct (Hc eq_refl) as [H0 H1]. unfold rstrip. apply rstrip_by_all.
          destruct HL as [->|[s Es]].
          - unfold py_take. rewrite firstn_nil. reflexivity.
          - unfold py_take, py_bound. destruct (snd (tok_start t) <? 0) eqn:E;
              [apply Z.ltb_lt in E; lia|].
            apply (firstn_ws_prefix L s ws rest _ Es Hw). unfold len in H1. lia. }
        rewrite E0. destruct (IH Ht' [] (or_introl eq_refl)) as [_ IH2].
        rewrite (IH2 (or_introl eq_refl)). split; [left; reflexivity|]. intros _. reflexivity.
    + destruct (IH Ht' L HL) as [IH1 IH2]. split; [exact IH1|].
      intros [HL0|(u & [<-|Hu] & Ku & Ou)];
        [apply IH2; left; exact HL0|congruence|apply IH2; right; eauto].
Qed.

Lemma build_step_blank_row (lines : list str) (tokens : list token) (r : Z) (acc : list seg * str) :
  comment_or_blank_row lines tokens r -> build_step lines tokens acc r = Some acc.
Proof.
  intros (ws & rest & Hl & Hw & Hrest & Ht). destruct acc as [mapping logical].
  unfold build_step. rewrite Hl.
  assert (HL : rstrip (ws ++ rest) = [] \/ exists s, rstrip (ws ++ rest) ++ s = ws ++ rest).
  { right. apply rstrip_by_prefix. }
  destruct (mute_line_blank_row r ws rest tokens Hw Ht _ HL) as [_ H2].
  assert (E : mute_line (rstrip (ws ++ rest)) r tokens = []).
  { apply H2. destruct Hrest as [Hr|Hr]; [left|right; exact Hr].
    unfold rstrip. apply rstrip_by_all. rewrite forallb_app.
    rewrite !forallb_ws_Forall by assumption. reflexivity. }
  rewrite E. reflexivity.
Qed.

Lemma build_skip_rows (lines : list str) (tokens : list token) (e : Z) :
  forall (d : nat) (n0 : Z) (acc : list seg * str),
  n0 + Z.of_nat d <= e + 1 ->
  (forall r, n0 <= r < n0 + Z.of_nat d -> comment_or_blank_row lines tokens r) ->
  build_loop lines tokens acc (zrange n0 (e + 1))
  = build_loop lines tokens acc (zrange (n0 + Z.of_nat d) (e + 1)).
Proof.
  induction d as [|d IH]; intros n0 acc He Hr.
  - rewrite Z.add_0_r. reflexivity.
  - rewrite (zrange_cons n0 (e + 1)) by lia. cbn [build_loop].
    rewrite (build_step_blank_row lines tokens n0 acc) by (apply Hr; lia).
    replace (n0 + Z.of_nat (S d)) with (n0 + 1 + Z.of_nat d) by lia.
    apply IH; [lia|]. intros r Hr'. apply Hr. lia.
Qed.

Lemma build_first_line (lines : list str) (tokens : list token) (n sc erow ec : Z)
    (ws q : str) (c : ascii) :
  1 <= n <= erow -> erow <= Z.of_nat (length lines) ->
  list_index lines (n - 1) = Some (ws ++ c :: q) ->
  Forall (fun x => is_ws x = true) ws -> is_ws c = false ->
  tokens_after_indent n ws tokens ->
  exists m lg, build_logical lines (n, sc) (erow, ec) tokens = Some ((0, n, len ws) :: m, lg).
Proof.
  intros Hn He Hl Hw Hc Ht.
  unfold build_logical. cbn [fst].
  rewrite (zrange_cons n (erow + 1)) by lia. cbn [build_loop].
  unfold build_step at 1. rewrite Hl.
  destruct (rstrip_keeps ws q c Hc) as [q1 E1]. rewrite E1.
  destruct (mute_line_keeps n ws c tokens Hc Ht q1) as [q2 E2]. rewrite E2.
  rewrite (lstrip_indent ws q2 c Hw Hc).
  assert (Hne : exists x y, ws ++ c :: q2 = x :: y)
    by (destruct ws; eexists _, _; reflexivity).
  destruct Hne as (x & y & Exy).
  assert (Hi : len (ws ++ c :: q2) - len (c :: q2) = len ws)
    by (rewrite len_app; lia).
  rewrite Exy in Hi |- *. cbv zeta. rewrite Hi.
  apply build_loop_head.
  intros k Hk. apply zrange_in in Hk. lia.
Qed.

(** C7: for a statement whose tokens (with the [readline] calls of the
    tokenizer among them) contain no [NEWLINE] at bracket depth zero
    before the final one, as in a call continued inside brackets,
    [check_all] makes exactly one [check_logical] call for the whole
    statement, after the physical checks of its lines. When the first
    physical line of the statement (row [k], after the blank and comment
    lines whose tokens may open the token list) is an indentation [ws]
    followed by a non-blank character, with the comments and strings on
    that line starting after [ws], that logical line's mapping starts on
    row [k] and its [indent_level] is [len ws]. *)
Theorem continued_statement_one_logical_line (o : Options) (evs rest : list event)
    (tn : token) (w : World) :
  (forall e, In e evs -> e <> EvTokenError) ->
  no_statement_end 0 (toks_of evs) = true ->
  tok_kind tn = NEWLINE ->
  paren_step (fold_left paren_step (toks_of evs) 0) tn = 0 ->
  let ts := toks_of evs ++ [tn] in
  let start := tok_start (hd tn (toks_of evs)) in
  all_loop o (evs ++ EvTok tn :: rest) None [] 0 w =
  (run_reads o evs ;;
   check_logical o start (tok_end tn) ts ;;
   all_loop o rest None [] 0) w /\
  forall (k : Z) (ws q : str) (c : ascii),
    fst start <= k -> 1 <= k <= fst (tok_end tn) ->
    fst (tok_end tn) <= Z.of_nat (length (lines (chk w))) ->
    (forall r, fst start <= r < k -> comment_or_blank_row (lines (chk w)) ts r) ->
    list_index (lines (chk w)) (k - 1) = Some (ws ++ c :: q) ->
    Forall (fun x => is_ws x = true) ws -> is_ws c = false ->
    tokens_after_indent k ws ts ->
    exists mapping logical,
      build_logical (lines (chk w)) start (tok_end tn) ts
        = Some ((0, k, len ws) :: mapping, logical) /\
      forall w0, lines (chk w0) = lines (chk w) ->
      check_logical o start (tok_end tn) ts w0 =
        (modify_chk (fun ck => with_logical ck logical (len ws)) ;;
         w1 <- get ;;
         logical_loop o ((0, k, len ws) :: mapping) (logical_checks (chk w1)) None) w0.
Proof.
  intros He Hn Hk Hp. cbv zeta.
  split; [apply all_loop_statement; assumption|].
  intros k ws q c Hk0 Hk1 Hlen Hrows Hl Hw Hc Ht.
  destruct (tok_start (hd tn (toks_of evs))) as [r0 sc].
  destruct (tok_end tn) as [erow ec]. cbn [fst] in *.
  assert (Eskip : build_logical (lines (chk w)) (r0, sc) (erow, ec) (toks_of evs ++ [tn])
                  = build_logical (lines (chk w)) (k, sc) (erow, ec) (toks_of evs ++ [tn])).
  { unfold build_logical. cbn [fst].
    pose proof (build_skip_rows (lines (chk w)) (toks_of evs ++ [tn]) erow
                  (Z.to_nat (k - r0)) r0 ([], [])) as H.
    rewrite Z2Nat.id in H by lia. replace (r0 + (k - r0)) with k in H by lia.
    apply H; [lia|]. exact Hrows. }
  destruct (build_first_line (lines (chk w)) (toks_of evs ++ [tn]) k sc erow ec ws q c
              Hk1 Hlen Hl Hw Hc Ht) as (m & lg & Eb).
  rewrite <- Eskip in Eb.
  exists m, lg. split; [exact Eb|].
  intros w0 Hw0. rewrite <- Hw0 in Eb.
  apply check_logical_unfold. exact Eb.
Qed.

Lemma continued_statement_one_logical_line_witness :
  all_loop default_options (lead_pre ++ EvTok lead_newline :: [EvRead])
    None [] 0 lead_world =
  (run_reads default_options lead_pre ;;
   check_logical default_options (2, 0) (5, 8) (toks_of lead_pre ++ [lead_newline]) ;;
   all_loop default_options [EvRead] None [] 0) lead_world /\
  build_logical lead_lines (2, 0) (5, 8) (toks_of lead_pre ++ [lead_newline])
    = Some ([(0, 4, 0); (7, 5, 4)], lit "foo(1, 2 )") /\
  exists mapping logical,
    build_logical lead_lines (2, 0) (5, 8) (toks_of lead_pre ++ [lead_newline])
      = Some ((0, 4, 0) :: mapping, logical) /\
    forall w0, lines (chk w0) = lead_lines ->
    check_logical default_options (2, 0) (5, 8) (toks_of lead_pre ++ [lead_newline]) w0 =
      (modify_chk (fun ck => with_logical ck logical 0) ;;
       w1 <- get ;;
       logical_loop default_options ((0, 4, 0) :: mapping) (logical_checks (chk w1)) None) w0.
Proof.
  assert (He : forall e, In e lead_pre -> e <> EvTokenError).
  { intros e Hin. vm_compute in Hin.
    repeat (destruct Hin as [<-|Hin]; [discriminate|]). destruct Hin. }
  assert (Hn : no_statement_end 0 (toks_of lead_pre) = true) by (vm_compute; reflexivity).
  assert (Hk : tok_kind lead_newline = NEWLINE) by reflexivity.
  assert (Hp : paren_step (fold_left paren_step (toks_of lead_pre) 0) lead_newline = 0)
    by (vm_compute; reflexivity).
  destruct (continued_statement_one_logical_line default_options lead_pre [EvRead]
              lead_newline lead_world He Hn Hk Hp) as [H1 H2].
  split; [exact H1|].
  split; [vm_compute; reflexivity|].
  apply (H2 4 [] (lit "oo(1," ++ nl) "f"%char).
  - vm_compute. discriminate.
  - vm_compute. split; discriminate.
  - vm_compute. discriminate.
  - intros r Hr. change (2 <= r < 4) in Hr.
    assert (Er : r = 2 \/ r = 3) by lia.
    destruct Er as [->| ->].
    + exists [], (lit "# c" ++ nl). split; [reflexivity|]. split; [constructor|].
      split.
      * right. exists (tok_of COMMENT (lit "# c") 2 0 2 3).
        split; [vm_compute; tauto|]. split; reflexivity.
      * intros t Hin Ho. vm_compute in Hin.
        repeat (destruct Hin as [<-|Hin];
                [first [vm_compute in Ho; discriminate Ho
                       |split; [discriminate|intros Hc0; try discriminate Hc0;
                                              vm_compute; split; discriminate]]|]).
        destruct Hin.
    + exists [], nl. split; [reflexivity|]. split; [constructor|].
      split.
      * left. repeat constructor.
      * intros t Hin Ho. vm_compute in Hin.
        repeat (destruct Hin as [<-|Hin];
                [first [vm_compute in Ho; discriminate Ho
                       |split; [discriminate|intros Hc0; try discriminate Hc0;
                                              vm_compute; split; discriminate]]|]).
        destruct Hin.
  - reflexivity.
  - constructor.
  - reflexivity.
  - unfold tokens_after_indent. intros t Hin. vm_compute in Hin.
    repeat (destruct Hin as [<-|Hin]; [vm_compute; intros; split; intros; discriminate|]).
    destruct Hin.
Defined.

(** C3 (amended): a [TokenError] raised by the tokenizer on a file is not
    caught. [input_file] runs its steps and the checks of the events before
    the error, then ends in [TokenError] in the world they left (no finding
    is printed for the error); only an exception raised earlier by one of
    those checks ends it first. The loop of [input_dir] ends with the same
    result, whatever files follow in the batch, which are never checked. *)
Theorem token_error_aborts_batch (o : Options) (g : list descr) (f : source_file)
    (pre post : list event) (w : World) :
  sf_events f = pre ++ EvTokenError :: post ->
  input_file o g f w = bind (input_file_upto o g f pre) (fun _ => raise TokenError) w /\
  (forall w1 ec, input_file_upto o g f pre w = (w1, inr ec) ->
     input_file o g f w = (w1, inl TokenError)) /\
  (forall rest acc, input_dir_files o g (f :: rest) acc w = input_file o g f w).
Proof.
  intros Ef.
  pose proof (input_file_token_error_exact o g f pre post w Ef) as E.
  split; [exact E|]. split.
  - intros w1 ec Eu. rewrite E. unfold bind at 1. rewrite Eu. reflexivity.
  - intros rest acc. cbn [input_dir_files]. unfold bind at 1. rewrite E.
    unfold bind at 1 2. destruct (input_file_upto o g f pre w) as [w1 [e|x]]; reflexivity.
Qed.

Lemma token_error_aborts_batch_witness :
  sf_events (unclosed_file (lit "a.py")) = firstn 8 unclosed_events ++ EvTokenError :: [] /\
  input_file_upto default_options module_globals (unclosed_file (lit "a.py"))
    (firstn 8 unclosed_events) start_world
  = (fst (input_file_upto default_options module_globals (unclosed_file (lit "a.py"))
            (firstn 8 unclosed_events) start_world), inr []) /\
  input_dir_files default_options module_globals
    [unclosed_file (lit "a.py"); trailing_file (lit "b.py")] [] start_world
  = (fst (input_file_upto default_options module_globals (unclosed_file (lit "a.py"))
            (firstn 8 unclosed_events) start_world), inl TokenError).
Proof.
  assert (Ef : sf_events (unclosed_file (lit "a.py"))
               = firstn 8 unclosed_events ++ EvTokenError :: []) by reflexivity.
  assert (Eu : input_file_upto default_options module_globals (unclosed_file (lit "a.py"))
                 (firstn 8 unclosed_events) start_world
               = (fst (input_file_upto default_options module_globals
                         (unclosed_file (lit "a.py")) (firstn 8 unclosed_events) start_world),
                  inr [])).
  { set (r := input_file_upto _ _ _ _ _).
    assert (Es : snd r = inr []) by (vm_compute; reflexivity).
    rewrite <- Es. apply surjective_pairing. }
  split; [exact Ef|]. split; [exact Eu|].
  destruct (token_error_aborts_batch default_options module_globals (unclosed_file (lit "a.py"))
              (firstn 8 unclosed_events) [] start_world Ef) as (_ & H2 & H3).
  rewrite H3. exact (H2 _ _ Eu).
Defined.

Lemma token_error_skips_next_file :
  snd (run (input_dir_files default_options module_globals
              [unclosed_file (lit "a.py"); trailing_file (lit "b.py")] []) start_world)
    = inl TokenError /\
  out (fst (run (input_dir_files default_options module_globals
                   [unclosed_file (lit "a.py"); trailing_file (lit "b.py")] []) start_world))
    = [] /\
  snd (run (input_dir_files default_options module_globals [trailing_file (lit "b.py")] [])
         start_world)
    = inr [(lit "W291 trailing whitespace", 1)] /\
  out (fst (run (input_dir_files default_options module_globals
                   [trailing_file (lit "b.py")] []) start_world))
    = [lit "b.py:2:10: W291 trailing whitespace"].
Proof. vm_compute. repeat split; reflexivity. Qed.

(** C4 (amended): [find_checks] does not look at the argument names after
    the first, so a check naming an input that is no attribute of the
    [Checker] is discovered like any other; the name is looked up by
    [run_check] each time the check is dispatched, and that is where the
    [AttributeError] is raised. *)
Theorem unresolvable_argument_raised_at_dispatch (g : list descr) (d : descr)
    (prefix a0 n : str) (rest : list str) (w : World) :
  In d g -> d_args d = a0 :: rest -> startswith a0 prefix = true ->
  get_args (chk w) (d_args d) = inl (AttributeError n) ->
  In d (find_checks g prefix) /\ run_check d w = (w, inl (AttributeError n)).
Proof.
  intros Hin Ea Hs Hg. split.
  - exact (find_checks_in g d prefix a0 rest Hin Ea Hs).
  - unfold run_check. rewrite Hg. reflexivity.
Qed.

Lemma unresolvable_argument_raised_at_dispatch_witness :
  In unknown_input_check (module_globals ++ [unknown_input_check]) /\
  get_args (chk one_line_world) (d_args unknown_input_check)
    = inl (AttributeError (lit "no_such_input")) /\
  In unknown_input_check (find_checks (module_globals ++ [unknown_input_check])
                            (lit "logical_line")) /\
  run_check unknown_input_check one_line_world
    = (one_line_world, inl (AttributeError (lit "no_such_input"))).
Proof.
  assert (Hin : In unknown_input_check (module_globals ++ [unknown_input_check]))
    by (apply in_or_app; right; left; reflexivity).
  assert (Hg : get_args (chk one_line_world) (d_args unknown_input_check)
               = inl (AttributeError (lit "no_such_input"))) by (vm_compute; reflexivity).
  split; [exact Hin|]. split; [exact Hg|].
  exact (unresolvable_argument_raised_at_dispatch (module_globals ++ [unknown_input_check])
           unknown_input_check (lit "logical_line") (lit "logical_line") (lit "no_such_input")
           [lit "no_such_input"] one_line_world Hin eq_refl eq_refl Hg).
Defined.

Lemma unknown_input_fails_after_output :
  In unknown_input_check
     (logical_checks (new_checker (module_globals ++ [unknown_input_check])
                        (one_line_file (lit "t.py")))) /\
  out (fst (run (input_dir_files default_options (module_globals ++ [unknown_input_check])
                   [one_line_file (lit "t.py"); trailing_file (lit "b.py")] []) start_world))
    = [lit "t.py:1:6: W291 trailing whitespace"] /\
  snd (run (input_dir_files default_options (module_globals ++ [unknown_input_check])
              [one_line_file (lit "t.py"); trailing_file (lit "b.py")] []) start_world)
    = inl (AttributeError (lit "no_such_input")).
Proof.
  split.
  - apply (find_checks_in _ _ _ (lit "logical_line") [lit "no_such_input"]).
    + apply in_or_app; right; left; reflexivity.
    + reflexivity.
    + reflexivity.
  - vm_compute. split; reflexivity.
Qed.

(** * Further properties of the code *)

(** [get_indent] counts at least one column per character of the indentation, and exactly one per character when the indentation has no tab. *)
Theorem get_indent_counts_blanks (line : str) :
  len (indent_match line) <= get_indent line /\
  (~ In tab (indent_match line) -> get_indent line = len (indent_match line)).
Proof.
  unfold get_indent. destruct (get_indent_loop_count line 0 ltac:(lia)) as [H1 H2].
  split; [lia|]. intros H. rewrite H2 by exact H. lia.
Qed.

(** A tab in the indentation moves [get_indent] to the next multiple of 8. *)
Theorem get_indent_tab_stop (p r : str) :
  Forall is_blank p ->
  (r = [] \/ exists c r', r = c :: r' /\ ~ is_blank c) ->
  get_indent (p ++ tab :: r) = 8 * (get_indent p / 8) + 8.
Proof.
  intros Hp Hr. unfold get_indent. rewrite get_indent_loop_app by exact Hp.
  cbn [get_indent_loop]. rewrite Ascii.eqb_refl. rewrite get_indent_loop_stop by exact Hr. lia.
Qed.

(** A concrete instance of [get_indent_tab_stop]. *)
Lemma get_indent_tab_stop_witness :
  Forall is_blank (lit "     ") /\ get_indent (lit "     " ++ tab :: lit "abc") = 8.
Proof.
  assert (Hp : Forall is_blank (lit "     ")) by (repeat constructor; left; reflexivity).
  split; [exact Hp|].
  rewrite (get_indent_tab_stop (lit "     ") (lit "abc") Hp).
  - reflexivity.
  - right. exists "a"%char, (lit "bc"). split; [reflexivity|].
    intros [H|H]; discriminate.
Defined.

(** Splitting the [--ignore] value at commas and joining the pieces back with commas gives the value again, and no piece contains a comma. *)
Theorem ignore_split_roundtrip (s : str) :
  py_join ","%char (py_split ","%char s) = s /\
  Forall (fun p => ~ In ","%char p) (py_split ","%char s).
Proof.
  induction s as [|c s [IH1 IH2]].
  - split; [reflexivity|]. repeat constructor. intros [].
  - pose proof (py_split_nonempty ","%char s) as Hn. cbn [py_split].
    destruct (py_split ","%char s) as [|p ps] eqn:Es; [contradiction|].
    destruct (Ascii.eqb c ","%char) eqn:E.
    + apply Ascii.eqb_eq in E. subst c. split.
      * change (","%char :: py_join ","%char (p :: ps) = ","%char :: s). rewrite IH1. reflexivity.
      * constructor; [intros []|exact IH2].
    + split.
      * rewrite py_join_cons, IH1. reflexivity.
      * inversion IH2 as [|x l Hx Hl]; subst. constructor; [|exact Hl].
        intros [H|H]; [subst c; rewrite Ascii.eqb_refl in E; discriminate|contradiction].
Qed.

(** An [--ignore] value ending in a comma yields an empty prefix, so [ignore_code] ignores every code. *)
Theorem ignore_trailing_comma_ignores_all (o : Options) (s code : str) :
  ignore o = parse_ignore (s ++ [","%char]) -> ignore_code o code = true.
Proof.
  intros Ho. unfold ignore_code. rewrite Ho.
  destruct (py_split_last ","%char s) as (q & qs & E).
  assert (Hp : parse_ignore (s ++ [","%char]) = py_split ","%char (s ++ [","%char]))
    by (destruct s; reflexivity).
  rewrite Hp, E. apply existsb_exists. exists []. split.
  - right. apply in_or_app. right. left. reflexivity.
  - destruct code; reflexivity.
Qed.

(** A concrete instance of [ignore_trailing_comma_ignores_all]. *)
Lemma ignore_trailing_comma_ignores_all_witness :
  ignore (Build_Options 0 0 (parse_ignore (lit "E4,")) false false false [])
    = parse_ignore (lit "E4" ++ [","%char]) /\
  ignore_code (Build_Options 0 0 (parse_ignore (lit "E4,")) false false false [])
    (lit "E501") = true.
Proof.
  assert (H : ignore (Build_Options 0 0 (parse_ignore (lit "E4,")) false false false [])
              = parse_ignore (lit "E4" ++ [","%char])) by reflexivity.
  split; [exact H|]. exact (ignore_trailing_comma_ignores_all _ (lit "E4") (lit "E501") H).
Defined.

(** Incrementing one key of an [error_count] dictionary adds to that key only, and keeps the keys distinct. *)
Theorem error_count_incr (d : list (str * Z)) (key k : str) (n : Z) :
  dict_get (dict_incr d key n) k = dict_get d k + (if str_eqb key k then n else 0) /\
  (NoDup (map fst d) -> NoDup (map fst (dict_incr d key n))).
Proof. split; [apply dict_get_incr|apply dict_incr_nodup]. Qed.

(** [add_error_count] adds the counts of [file_errors] key by key to [error_count]. *)
Theorem add_error_count_sums (ec fe : list (str * Z)) (k : str) :
  NoDup (map fst fe) ->
  dict_get (add_error_count ec fe) k = dict_get ec k + dict_get fe k.
Proof. intros H. apply add_error_count_get_aux. exact H. Qed.

(** A concrete instance of [add_error_count_sums]. *)
Lemma add_error_count_sums_witness :
  NoDup (map fst [(lit "W291 trailing whitespace", 2); (lit "E501 line too long", 1)]) /\
  dict_get (add_error_count [(lit "W291 trailing whitespace", 3)]
              [(lit "W291 trailing whitespace", 2); (lit "E501 line too long", 1)])
           (lit "W291 trailing whitespace") = 3 + 2.
Proof.
  assert (H : NoDup (map fst [(lit "W291 trailing whitespace", 2); (lit "E501 line too long", 1)])).
  { constructor; [|constructor; [intros []|constructor]].
    intros [H|[]]. discriminate H. }
  split; [exact H|].
  exact (add_error_count_sums [(lit "W291 trailing whitespace", 3)] _
           (lit "W291 trailing whitespace") H).
Defined.

(** [tabs_or_spaces] records the first indentation character seen, and reports E101 at the first character of the indentation that differs from it. *)
Theorem tabs_or_spaces_first_mixed (line : str) (st : State) :
  indent_match line <> [] ->
  exists c,
    st_indent_char (snd (tabs_or_spaces line st)) = Some c /\
    Some c = match st_indent_char st with
             | Some c' => Some c'
             | None => hd_error (indent_match line)
             end /\
    match fst (tabs_or_spaces line st) with
    | None => Forall (eq c) (indent_match line)
    | Some (k, text) =>
        text = lit "E101 indentation contains mixed spaces and tabs" /\ 0 <= k /\
        firstn (Z.to_nat k) (indent_match line) = repeat c (Z.to_nat k) /\
        exists d, nth_error (indent_match line) (Z.to_nat k) = Some d /\ d <> c
    end.
Proof.
  intros Hne. pose proof (tabs_or_spaces_char line st) as Hc.
  unfold tabs_or_spaces in *. destruct (indent_match line) as [|c0 r]; [contradiction|].
  destruct (st_indent_char st) as [c|] eqn:E; cbv beta iota zeta in *.
  - exists c. pose proof (first_other_spec c (c0 :: r) 0) as Hf.
    destruct (first_other c (c0 :: r) 0) as [j|]; cbn [fst snd] in *.
    + split; [exact Hc|]. split; [reflexivity|].
      replace (j - 0) with j in Hf by lia. destruct Hf as (H1 & H2 & H3).
      split; [reflexivity|]. split; [lia|]. split; assumption.
    + split; [exact Hc|]. split; [reflexivity|]. exact Hf.
  - exists c0. pose proof (first_other_spec c0 (c0 :: r) 0) as Hf.
    destruct (first_other c0 (c0 :: r) 0) as [j|]; cbn [fst snd] in *.
    + split; [reflexivity|]. split; [reflexivity|].
      replace (j - 0) with j in Hf by lia. destruct Hf as (H1 & H2 & H3).
      split; [reflexivity|]. split; [lia|]. split; assumption.
    + split; [reflexivity|]. split; [reflexivity|]. exact Hf.
Qed.

(** A concrete instance of [tabs_or_spaces_first_mixed]. *)
Lemma tabs_or_spaces_first_mixed_witness :
  indent_match mixed_line <> [] /\
  fst (tabs_or_spaces mixed_line empty_state)
    = Some (1, lit "E101 indentation contains mixed spaces and tabs") /\
  exists c,
    st_indent_char (snd (tabs_or_spaces mixed_line empty_state)) = Some c /\
    Some c = match st_indent_char empty_state with
             | Some c' => Some c'
             | None => hd_error (indent_match mixed_line)
             end /\
    match fst (tabs_or_spaces mixed_line empty_state) with
    | None => Forall (eq c) (indent_match mixed_line)
    | Some (k, text) =>
        text = lit "E101 indentation contains mixed spaces and tabs" /\ 0 <= k /\
        firstn (Z.to_nat k) (indent_match mixed_line) = repeat c (Z.to_nat k) /\
        exists d, nth_error (indent_match mixed_line) (Z.to_nat k) = Some d /\ d <> c
    end.
Proof.
  split; [discriminate|]. split; [vm_compute; reflexivity|].
  apply tabs_or_spaces_first_mixed. discriminate.
Defined.

(** Over a sequence of physical lines, the indentation character kept in [state] is the first indentation character of the first indented line. *)
Theorem tabs_or_spaces_run_char (physical_lines : list str) (st : State) :
  st_indent_char (tabs_or_spaces_run physical_lines st) =
  match st_indent_char st with
  | Some c => Some c
  | None => hd_error (concat (map indent_match physical_lines))
  end.
Proof.
  revert st. induction physical_lines as [|l ls IH]; intros st; simpl.
  - destruct (st_indent_char st); reflexivity.
  - rewrite IH, tabs_or_spaces_char. destruct (st_indent_char st); [reflexivity|].
    destruct (indent_match l); reflexivity.
Qed.

(** [tabs_obsolete] reports W191 at the first tab of the indentation, and nothing when the indentation has no tab. *)
Theorem tabs_obsolete_first_tab (line : str) :
  match tabs_obsolete line with
  | None => ~ In tab (indent_match line)
  | Some (k, text) =>
      text = lit "W191 indentation contains tabs" /\ 0 <= k /\
      nth_error (indent_match line) (Z.to_nat k) = Some tab /\
      firstn (Z.to_nat k) (indent_match line) = repeat " "%char (Z.to_nat k)
  end.
Proof.
  unfold tabs_obsolete. pose proof (first_index_spec tab (indent_match line) 0) as Hf.
  destruct (first_index tab (indent_match line) 0) as [j|]; [|exact Hf].
  replace (j - 0) with j in Hf by lia. destruct Hf as (H1 & H2 & H3).
  split; [reflexivity|]. split; [lia|]. split; [exact H2|].
  rewrite (blanks_without_tab _ (Forall_firstn' _ _ _ (indent_match_blank line)) H3).
  f_equal. rewrite length_firstn.
  assert (Z.to_nat j < length (indent_match line))%nat
    by (apply nth_error_Some; rewrite H2; discriminate).
  lia.
Qed.

(** [trailing_whitespace] reports W291 at the first character of trailing blanks, and nothing on a line without them. *)
Theorem trailing_whitespace_at_end (s ws : str) (c : ascii) :
  is_ws c = false -> ws <> [] -> Forall is_blank ws ->
  trailing_whitespace ((s ++ [c]) ++ ws ++ [chr 10])
    = Some (len (s ++ [c]), lit "W291 trailing whitespace") /\
  trailing_whitespace ((s ++ [c]) ++ [chr 10]) = None.
Proof.
  intros Hc Hne Hws.
  destruct (exists_last Hne) as (ws' & w & Ew).
  assert (Hw : is_blank w).
  { rewrite Forall_forall in Hws. apply Hws. rewrite Ew. apply in_or_app. right. left. reflexivity. }
  assert (Hrs : rstrip (s ++ [c]) = s ++ [c]) by (apply rstrip_by_last; exact Hc).
  split.
  - unfold trailing_whitespace. rewrite app_assoc, rstrip_char_drop.
    rewrite Ew, app_assoc.
    rewrite !rstrip_char_keep by (destruct Hw as [-> | ->]; reflexivity).
    rewrite <- app_assoc, <- Ew, rstrip_app_blanks by exact Hws. rewrite Hrs.
    assert (Hd : str_eqb ((s ++ [c]) ++ ws) (s ++ [c]) = false).
    { destruct (str_eqb _ _) eqn:E; [|reflexivity]. apply str_eqb_eq in E.
      apply (f_equal (@length ascii)) in E. rewrite length_app in E.
      destruct ws; [contradiction|]. simpl in E. lia. }
    rewrite Hd. reflexivity.
  - unfold trailing_whitespace. rewrite rstrip_char_drop.
    rewrite !rstrip_char_keep by (apply not_ws_neq; [exact Hc|reflexivity]).
    rewrite Hrs.
    replace (str_eqb (s ++ [c]) (s ++ [c])) with true by (symmetry; apply str_eqb_eq; reflexivity).
    reflexivity.
Qed.

(** A concrete instance of [trailing_whitespace_at_end]. *)
Lemma trailing_whitespace_at_end_witness :
  is_ws "1"%char = false /\ lit "  " <> [] /\ Forall is_blank (lit "  ") /\
  trailing_whitespace ((lit "x = " ++ ["1"%char]) ++ lit "  " ++ [chr 10])
    = Some (len (lit "x = " ++ ["1"%char]), lit "W291 trailing whitespace").
Proof.
  assert (H1 : is_ws "1"%char = false) by reflexivity.
  assert (H2 : lit "  " <> []) by discriminate.
  assert (H3 : Forall is_blank (lit "  ")) by (repeat constructor; left; reflexivity).
  split; [exact H1|]. split; [exact H2|]. split; [exact H3|].
  exact (proj1 (trailing_whitespace_at_end (lit "x = ") (lit "  ") "1"%char H1 H2 H3)).
Defined.

(** [maximum_line_length] reports E501 at offset 79 exactly when the right-stripped line is longer than 79, and the message is counted under [E501 line too long]. *)
Theorem maximum_line_length_count_key (physical_line : str) :
  match maximum_line_length physical_line with
  | None => len (rstrip physical_line) <= 79
  | Some (k, text) =>
      k = 79 /\ 79 < len (rstrip physical_line) /\
      count_text_of text = lit "E501 line too long"
  end.
Proof.
  unfold maximum_line_length. set (n := len (rstrip physical_line)).
  destruct (79 <? n) eqn:E.
  - apply Z.ltb_lt in E. split; [reflexivity|]. split; [exact E|].
    change (lit "E501 line too long (" ++ z_str n ++ lit " characters)")
      with (lit "E501 line too long " ++ ("("%char :: z_str n ++ lit " characters)")).
    rewrite count_text_of_value.
    + reflexivity.
    + lia.
    + simpl. intuition discriminate.
    + rewrite app_comm_cons, app_assoc.
      change (lit " characters)") with (lit " characters" ++ lit ")").
      rewrite app_assoc. apply endswith_app.
  - apply Z.ltb_ge in E. exact E.
Qed.

(** An E303 finding of [blank_lines] is counted under [E303 too many blank lines], whatever number it shows. *)
Theorem blank_lines_e303_count_key (logical_line : str) (st st' : State) (indent_level k : Z)
    (text : str) :
  blank_lines logical_line st indent_level = (Some (k, text), st') ->
  py_take 4 text = lit "E303" ->
  count_text_of text = lit "E303 too many blank lines".
Proof.
  intros H Hc. unfold blank_lines in H. cbv zeta in H.
  set (count := match st_blank_lines st with Some z => z | None => 0 end) in H.
  assert (Hn : (2 <? count) = true -> count_text_of (lit "E303 too many blank lines (" ++ z_str count ++ lit ")")
                                    = lit "E303 too many blank lines").
  { intros E. apply Z.ltb_lt in E.
    change (lit "E303 too many blank lines (" ++ z_str count ++ lit ")")
      with (lit "E303 too many blank lines " ++ ("("%char :: z_str count ++ lit ")")).
    rewrite count_text_of_value.
    - reflexivity.
    - lia.
    - intros [H'|[]]. discriminate H'.
    - rewrite app_comm_cons, app_assoc. apply endswith_app. }
  repeat match type of H with
  | context [if ?b then _ else _] => destruct b eqn:?
  end.
  all: inversion H; subst; try exact (Hn eq_refl).
  all: cbn [lit list_ascii_of_string app] in Hc; rewrite py_take_4 in Hc; discriminate Hc.
Qed.

(** A concrete instance of [blank_lines_e303_count_key]. *)
Lemma blank_lines_e303_count_key_witness :
  blank_lines (lit "x = 1") (set_blank_lines empty_state 3) 0
    = (Some (0, lit "E303 too many blank lines (3)"), set_blank_lines empty_state 0) /\
  py_take 4 (lit "E303 too many blank lines (3)") = lit "E303" /\
  count_text_of (lit "E303 too many blank lines (3)") = lit "E303 too many blank lines".
Proof.
  assert (H1 : blank_lines (lit "x = 1") (set_blank_lines empty_state 3) 0
    = (Some (0, lit "E303 too many blank lines (3)"), set_blank_lines empty_state 0))
    by reflexivity.
  assert (H2 : py_take 4 (lit "E303 too many blank lines (3)") = lit "E303") by reflexivity.
  split; [exact H1|]. split; [exact H2|].
  exact (blank_lines_e303_count_key _ _ _ _ _ _ H1 H2).
Defined.

(** On a file without empty lines, [blank_lines] reports nothing on the first line, and reports E301 or E302 (found 0) on every later [def ] line. *)
Theorem blank_lines_without_empty_lines (l0 : str) (il0 : Z) (rest : list (str * Z)) :
  l0 <> [] -> Forall (fun p => fst p <> []) rest ->
  fst (blank_lines_run ((l0, il0) :: rest) empty_state)
    = None :: map (fun '(l, il) => def_line_finding l il) rest.
Proof.
  intros H0 Hr. simpl.
  assert (E : blank_lines l0 empty_state il0 = (None, set_blank_lines empty_state 0)).
  { unfold blank_lines. destruct l0 as [|c r]; [contradiction|].
    cbn [st_blank_lines empty_state negb]. cbv zeta iota beta.
    rewrite andb_false_r. reflexivity. }
  rewrite E. pose proof (blank_lines_run_zero rest Hr (set_blank_lines empty_state 0) eq_refl) as H.
  destruct (blank_lines_run rest (set_blank_lines empty_state 0)). simpl in *. rewrite H.
  reflexivity.
Qed.

(** A concrete instance of [blank_lines_without_empty_lines]. *)
Lemma blank_lines_without_empty_lines_witness :
  lit "def f():" <> [] /\ Forall (fun p => fst p <> []) def_lines /\
  fst (blank_lines_run ((lit "def f():", 0) :: def_lines) empty_state)
    = None :: map (fun '(l, il) => def_line_finding l il) def_lines.
Proof.
  split; [discriminate|].
  assert (H : Forall (fun p => fst p <> []) def_lines)
    by (repeat constructor; discriminate).
  split; [exact H|].
  apply blank_lines_without_empty_lines; [discriminate|exact H].
Defined.

(** [extraneous_whitespace] never raises, and the offset it reports points at a space of the line. *)
Theorem extraneous_whitespace_points_at_space (logical_line : str) :
  exists r, extraneous_whitespace logical_line = inr r /\
  forall k text, r = Some (k, text) -> 0 <= k /\ py_index logical_line k = Some " "%char.
Proof.
  unfold extraneous_whitespace. cbv beta iota zeta delta [lit list_ascii_of_string].
  repeat match goal with
  | |- context [if (-1 <? find ?l ?sub) then _ else _] =>
      let E := fresh "E" in destruct (-1 <? find l sub) eqn:E; cbv beta iota
  | |- context [match py_index ?l ?k with _ => _ end] =>
      let P := fresh "P" in destruct (py_index l k) eqn:P; cbv beta iota
  | |- context [if negb ?b then _ else _] => destruct (negb b); cbv beta iota
  end.
  all: try (eexists; split; [reflexivity|]; intros k text Hr; inversion Hr; subst; clear Hr).
  all: try (eexists; split; [reflexivity|]; intros k text Hr; discriminate Hr).
  all: first
    [ match goal with
      | |- context [find ?l ?sub] =>
          match goal with
          | E : (-1 <? find l sub) = true |- _ =>
              destruct (find_hit2 _ _ _ E) as (H1 & H2 & H3); split; [lia|assumption]
          end
      end
    | exfalso;
      match goal with
      | P : py_index ?l (find ?l ?sub - 1) = None, E : (-1 <? find ?l ?sub) = true |- _ =>
          destruct (find_hit2 _ _ _ E) as (H1 & H2 & H3);
          pose proof (py_index_len _ _ _ H2 H1);
          exact (py_index_in_range l (find l sub - 1) ltac:(lia) P)
      end ].
Qed.

(** When a logical line starts with a non-blank character, [whitespace_before_parameters] never raises, and an E211 offset points at a space followed by an opening bracket. *)
Theorem whitespace_before_parameters_no_error (logical_line : str) (c : ascii) (rest : str) :
  logical_line = c :: rest -> is_ws c = false ->
  exists r, whitespace_before_parameters logical_line = inr r /\
  forall k text, r = Some (k, text) ->
    1 <= k /\ py_index logical_line k = Some " "%char /\
    (py_index logical_line (k + 1) = Some "("%char \/
     py_index logical_line (k + 1) = Some "["%char).
Proof.
  intros El Hc. cbv beta zeta delta [whitespace_before_parameters].
  match goal with
  | |- context [?F (S (length logical_line)) "("%char (-1)] =>
      assert (Hscan : forall fuel ch found, -1 <= found ->
                exists r, F fuel ch found = inr r /\
                forall k text, r = Some (k, text) ->
                  1 <= k /\ py_index logical_line k = Some " "%char /\
                  py_index logical_line (k + 1) = Some ch);
      [ intros fuel; induction fuel as [|fuel IH]; intros ch found Hf;
        [exists None; split; [reflexivity|intros k text Hr; discriminate Hr]|]
      | destruct (Hscan (S (length logical_line)) "("%char (-1) ltac:(lia))
          as (r1 & E1 & H1);
        destruct (Hscan (S (length logical_line)) "["%char (-1) ltac:(lia))
          as (r2 & E2 & H2);
        rewrite E1; destruct r1 as [[k1 t1]|];
        [ exists (Some (k1, t1)); split; [reflexivity|];
          intros k text Hr; injection Hr as <- <-;
          destruct (H1 k1 t1 eq_refl) as (A & B & C); auto
        | rewrite E2; exists r2; split; [reflexivity|];
          intros k text Hr; destruct (H2 k text Hr) as (A & B & C); auto ] ]
  end.
  cbn beta iota.
  set (f := find_from logical_line [" "%char; ch] (found + 1)).
  destruct (f =? -1) eqn:Ef.
  - exists None. split; [reflexivity|]. intros k text Hr. discriminate Hr.
  - apply Z.eqb_neq in Ef.
    destruct (find_from_hit2 logical_line " "%char ch (found + 1) ltac:(lia) Ef)
      as (F1 & F2 & F3).
    fold f in F1, F2, F3.
    assert (Hf1 : 1 <= f).
    { destruct (Z.eq_dec f 0) as [E0|E0]; [|lia].
      rewrite E0, El in F2. simpl in F2. injection F2 as ->. discriminate Hc. }
    destruct (py_take_head c rest f Hf1) as (r' & Et). rewrite <- El in Et.
    pose proof (last_token_match_some c r' Hc) as Hl. rewrite <- Et in Hl.
    destruct (last_token_match (py_take f logical_line)) as [before|]; [|contradiction].
    destruct (_ || _).
    + apply IH. lia.
    + eexists. split; [reflexivity|]. intros k text Hr. injection Hr as <- <-. auto.
Qed.

(** A concrete instance of [whitespace_before_parameters_no_error]. *)
Lemma whitespace_before_parameters_no_error_witness :
  whitespace_before_parameters (lit "f (x)")
    = inr (Some (1, lit "E211 whitespace before '('")) /\
  exists r, whitespace_before_parameters (lit "f (x)") = inr r /\
  forall k text, r = Some (k, text) ->
    1 <= k /\ py_index (lit "f (x)") k = Some " "%char /\
    (py_index (lit "f (x)") (k + 1) = Some "("%char \/
     py_index (lit "f (x)") (k + 1) = Some "["%char).
Proof.
  split; [vm_compute; reflexivity|].
  apply (whitespace_before_parameters_no_error (lit "f (x)") "f"%char (lit " (x)"));
    reflexivity.
Defined.

(** [whitespace_around_operator] reports at a run of two spaces or at a tab followed by an operator, and nothing when no operator is preceded by either. *)
Theorem whitespace_around_operator_offset (logical_line : str) :
  match whitespace_around_operator logical_line with
  | Some (k, text) =>
      0 <= k /\ exists op, In op operators /\
      ((text = lit "E221 multiple spaces before operator" /\
        startswith (skipn (Z.to_nat k) logical_line) (lit "  " ++ op) = true) \/
       (text = lit "E222 tab before operator" /\
        startswith (skipn (Z.to_nat k) logical_line) (tab :: op) = true))
  | None => forall op k, In op operators ->
      startswith (skipn k logical_line) (lit "  " ++ op) = false /\
      startswith (skipn k logical_line) (tab :: op) = false
  end.
Proof.
  cbv beta zeta delta [whitespace_around_operator].
  match goal with
  | |- context [?F operators] =>
      assert (H : forall ops, match F ops with
        | Some (k, text) =>
            0 <= k /\ exists op, In op ops /\
            ((text = lit "E221 multiple spaces before operator" /\
              startswith (skipn (Z.to_nat k) logical_line) (lit "  " ++ op) = true) \/
             (text = lit "E222 tab before operator" /\
              startswith (skipn (Z.to_nat k) logical_line) (tab :: op) = true))
        | None => forall op k, In op ops ->
            startswith (skipn k logical_line) (lit "  " ++ op) = false /\
            startswith (skipn k logical_line) (tab :: op) = false
        end); [|exact (H operators)]
  end.
  induction ops as [|op ops IH]; cbn beta iota.
  - intros op k [].
  - destruct (-1 <? find logical_line (lit "  " ++ op)) eqn:E1.
    + apply find_hit_sw in E1 as [A B]. split; [exact A|].
      exists op. split; [left; reflexivity|]. left. auto.
    + destruct (-1 <? find logical_line (tab :: op)) eqn:E2.
      * apply find_hit_sw in E2 as [A B]. split; [exact A|].
        exists op. split; [left; reflexivity|]. right. auto.
      * destruct ((fix go (ops : list str) : option (Z * str) := _) ops) as [[k text]|].
        -- destruct IH as [A (o & Ho & Hs)]. split; [exact A|]. exists o.
           split; [right; exact Ho|exact Hs].
        -- intros o k [<-|Ho]; [|exact (IH o k Ho)].
           apply Z.ltb_ge in E1, E2.
           destruct (find_spec logical_line (lit "  " ++ op)) as [F1|(F1 & _)]; [|lia].
           destruct (find_spec logical_line (tab :: op)) as [F2|(F2 & _)]; [|lia].
           split; apply find_miss; assumption.
Qed.

(** [imports_on_separate_lines] reports E401 at the first comma of a line starting with [import ], and nothing on other lines or without a comma. *)
Theorem imports_on_separate_lines_first_comma (logical_line : str) :
  match imports_on_separate_lines logical_line with
  | Some (k, text) =>
      startswith logical_line (lit "import ") = true /\
      text = lit "E401 multiple imports on one line" /\
      0 <= k /\ py_index logical_line k = Some ","%char /\
      forall j, 0 <= j < k -> py_index logical_line j <> Some ","%char
  | None =>
      startswith logical_line (lit "import ") = false \/ ~ In ","%char logical_line
  end.
Proof.
  unfold imports_on_separate_lines.
  destruct (startswith logical_line (lit "import ")) eqn:Ei; [|left; reflexivity].
  destruct (find_spec logical_line (lit ",")) as [F|(F1 & F2 & F3)].
  - rewrite F. cbn. right. intros Hin. apply In_nth_error in Hin as [n Hn].
    apply nth_error_startswith1 in Hn. change [","%char] with (lit ",") in Hn. rewrite (find_miss _ (lit ",") F n) in Hn. discriminate.
  - replace (-1 <? find logical_line (lit ",")) with true by (symmetry; apply Z.ltb_lt; lia).
    split; [reflexivity|]. split; [reflexivity|]. split; [exact F1|].
    split.
    + rewrite py_index_nth by exact F1. apply startswith_cons_nth in F2. apply F2.
    + intros j Hj Hc. rewrite py_index_nth in Hc by lia.
      apply nth_error_startswith1 in Hc. change [","%char] with (lit ",") in Hc. rewrite (F3 (Z.to_nat j)) in Hc by lia.
      discriminate.
Qed.

(** [report_error] always increments the count of the message, whatever the options and even when it raises, changes nothing else in the checker, and only appends to the output. *)
Theorem report_error_always_counts (o : Options) (line_number : Z) (offset : Z)
    (text : str) (check : descr) (w : World) :
  chk (fst (report_error o line_number offset text check w)) =
    with_error_count (chk w) (dict_incr (error_count (chk w)) (count_text_of text) 1) /\
  exists printed, out (fst (report_error o line_number offset text check w)) = out w ++ printed.
Proof.
  destruct w as [[f ls pc lc ln ec st pl ll il] ow].
  unfold report_error, bind, get, ret, message, modify_chk, lift_opt, raise.
  cbn [chk out fst snd error_count filename lines ret raise].
  repeat match goal with
  | |- context [match ?x with _ => _ end] =>
      lazymatch x with
      | context [match _ with _ => _ end] => fail
      | _ => lazymatch type of x with
             | bool => destruct x
             | option _ => destruct x
             | list _ => destruct x
             | sum _ _ => destruct x
             end
      end; cbn [chk out fst snd error_count filename lines ret raise]
  end; split; try reflexivity;
  first [exists []; symmetry; apply app_nil_r | eexists; rewrite <- ?app_assoc; reflexivity].
Qed.

(** With [quiet] set, [report_error] prints at most the file name (for the first error at [quiet = 1]) and returns. *)
Theorem report_error_quiet (o : Options) (line_number offset : Z) (text : str)
    (check : descr) (w : World) :
  quiet o <> 0 ->
  report_error o line_number offset text check w =
    (Build_World (with_error_count (chk w) (dict_incr (error_count (chk w)) (count_text_of text) 1))
       (out w ++ (if (quiet o =? 1) && (length (error_count (chk w)) =? 0)%nat
                  then [filename (chk w)] else [])), inr tt).
Proof.
  intros Hq. destruct w as [[f ls pc lc ln ec st pl ll il] ow].
  unfold report_error, bind, get, ret, message, modify_chk, lift_opt.
  cbn [chk out fst snd error_count filename]. rewrite (proj2 (Z.eqb_neq _ _) Hq). cbn [negb].
  destruct (quiet o =? 1), ec; cbn [andb length Nat.eqb]; rewrite ?app_nil_r; reflexivity.
Qed.

(** A concrete instance of [report_error_quiet]. *)
Lemma report_error_quiet_witness :
  quiet quiet_options <> 0 /\
  report_error quiet_options 2 1 (lit "E221 multiple spaces before operator")
    unknown_input_check report_world =
    (Build_World (with_error_count (chk report_world)
        (dict_incr (error_count (chk report_world))
           (count_text_of (lit "E221 multiple spaces before operator")) 1))
       (out report_world ++
        (if (quiet quiet_options =? 1) && (length (error_count (chk report_world)) =? 0)%nat
         then [filename (chk report_world)] else [])), inr tt).
Proof.
  split; [discriminate|].
  apply (report_error_quiet quiet_options 2 1 (lit "E221 multiple spaces before operator")
           unknown_input_check report_world). discriminate.
Defined.

(** With [show_source], [report_error] prints the location, the source line and a caret under the offset, and raises [IndexError] after the location when the line number is out of range. *)
Theorem report_error_show_source (o : Options) (line_number offset : Z) (text : str)
    (check : descr) (w : World) :
  quiet o = 0 -> testsuite o = [] -> ignore_code o (py_take 4 text) = false ->
  show_source o = true -> show_pep8 o = false ->
  report_error o line_number offset text check w =
    let c := with_error_count (chk w) (dict_incr (error_count (chk w)) (count_text_of text) 1) in
    let loc := error_location (filename (chk w)) line_number offset text in
    match list_index (lines (chk w)) (line_number - 1) with
    | Some line =>
        (Build_World c (out w ++ [loc; line; repeat " "%char (Z.to_nat offset) ++ lit "^"]), inr tt)
    | None => (Build_World c (out w ++ [loc]), inl IndexError)
    end.
Proof.
  intros Hq Ht Hi Hs Hp. destruct w as [c ow].
  unfold report_error, bind, get, ret, raise, message, modify_chk, lift_opt, error_location.
  cbn [chk out fst snd]. rewrite Hq, Ht, Hi, Hs, Hp. cbn [negb Z.eqb andb].
  destruct ((0 =? 1) && match error_count c with [] => true | _ => false end);
    cbn [chk out fst snd lines filename with_error_count];
  destruct (list_index (lines c) (line_number - 1)); cbn [chk out fst snd ret];
    rewrite <- ?app_assoc; reflexivity.
Qed.

(** A concrete instance of [report_error_show_source]. *)
Lemma report_error_show_source_witness :
  quiet source_options = 0 /\ testsuite source_options = [] /\
  ignore_code source_options (py_take 4 (lit "E221 multiple spaces before operator")) = false /\
  show_source source_options = true /\ show_pep8 source_options = false /\
  report_error source_options 2 1 (lit "E221 multiple spaces before operator")
    unknown_input_check report_world =
    let c := with_error_count (chk report_world)
               (dict_incr (error_count (chk report_world))
                  (count_text_of (lit "E221 multiple spaces before operator")) 1) in
    let loc := error_location (filename (chk report_world)) 2 1
                 (lit "E221 multiple spaces before operator") in
    match list_index (lines (chk report_world)) (2 - 1) with
    | Some line =>
        (Build_World c (out report_world ++ [loc; line; repeat " "%char (Z.to_nat 1) ++ lit "^"]),
         inr tt)
    | None => (Build_World c (out report_world ++ [loc]), inl IndexError)
    end.
Proof.
  do 5 (split; [reflexivity|]).
  apply (report_error_show_source source_options 2 1 (lit "E221 multiple spaces before operator")
           unknown_input_check report_world); reflexivity.
Defined.

(** In testsuite mode, [report_error] prints nothing for a code that the file name announces or for a warning in an error test file. *)
Theorem report_error_testsuite_skip (o : Options) (line_number offset : Z) (text : str)
    (check : descr) (w : World) :
  quiet o = 0 -> testsuite o <> [] ->
  (py_take 4 (basename (filename (chk w))) = py_take 4 text \/
   (hd_error (basename (filename (chk w))) = Some "E"%char /\ hd_error text = Some "W"%char)) ->
  report_error o line_number offset text check w =
    (Build_World (with_error_count (chk w) (dict_incr (error_count (chk w)) (count_text_of text) 1))
       (out w), inr tt).
Proof.
  intros Hq Ht Hb. destruct w as [c ow].
  unfold report_error, bind, get, ret, message, modify_chk, lift_opt.
  cbn [chk out fst snd] in *. rewrite Hq. cbn [negb Z.eqb andb].
  destruct (testsuite o) as [|t ts]; [contradiction|].
  destruct (str_eqb (py_take 4 (basename (filename c))) (py_take 4 text)) eqn:Eb.
  - cbn [chk out fst snd]. reflexivity.
  - destruct Hb as [Hb|[Hb1 Hb2]].
    + apply str_eqb_eq in Hb. congruence.
    + rewrite py_index_take4, Hb1. cbn [chk out fst snd Ascii.eqb Bool.eqb].
      rewrite py_index_take4, Hb2. reflexivity.
Qed.

(** A concrete instance of [report_error_testsuite_skip]. *)
Lemma report_error_testsuite_skip_witness :
  quiet testsuite_options = 0 /\ testsuite testsuite_options <> [] /\
  (hd_error (basename (filename (chk report_world))) = Some "E"%char /\
   hd_error (lit "W291 trailing whitespace") = Some "W"%char) /\
  report_error testsuite_options 2 5 (lit "W291 trailing whitespace")
    unknown_input_check report_world =
    (Build_World (with_error_count (chk report_world)
        (dict_incr (error_count (chk report_world))
           (count_text_of (lit "W291 trailing whitespace")) 1))
       (out report_world), inr tt).
Proof.
  split; [reflexivity|]. split; [discriminate|]. split; [split; reflexivity|].
  apply (report_error_testsuite_skip testsuite_options 2 5 (lit "W291 trailing whitespace")
           unknown_input_check report_world); [reflexivity|discriminate|].
  right. split; reflexivity.
Defined.

(** [readline] returns the next line of the file, or the empty string past the end, and advances [line_number] by one. *)
Theorem readline_next_line (w : World) (n : Z) :
  line_number (chk w) = Some n -> 0 <= n ->
  readline w =
    (Build_World (with_line_number (chk w) (n + 1)) (out w),
     inr (nth (Z.to_nat n) (lines (chk w)) [])).
Proof.
  intros Hn Hpos. destruct w as [c ow]. cbn [chk out] in *.
  unfold readline, get_line_number, bind, get, lift_opt, modify_chk, ret, raise.
  cbn [chk out]. rewrite Hn. cbn [chk out lines with_line_number].
  destruct (Z.of_nat (length (lines c)) <? n + 1) eqn:E.
  - apply Z.ltb_lt in E. rewrite nth_overflow by lia. reflexivity.
  - apply Z.ltb_ge in E. unfold list_index.
    replace (n + 1 - 1 <? 0) with false by (symmetry; apply Z.ltb_ge; lia).
    replace (n + 1 - 1) with n by lia.
    replace (n <? 0) with false by (symmetry; apply Z.ltb_ge; lia).
    rewrite (nth_error_nth' (lines c) [] (n := Z.to_nat n)) by lia. reflexivity.
Qed.

(** A concrete instance of [readline_next_line]. *)
Lemma readline_next_line_witness :
  line_number (chk reading_world) = Some 1 /\
  readline reading_world =
    (Build_World (with_line_number (chk reading_world) (1 + 1)) (out reading_world),
     inr (nth (Z.to_nat 1) (lines (chk reading_world)) [])) /\
  nth (Z.to_nat 1) (lines (chk reading_world)) [] = lit "y  = 2".
Proof.
  split; [reflexivity|]. split; [|reflexivity].
  apply readline_next_line; [reflexivity|lia].
Defined.

(** Mapping a logical offset back selects the last [mapping] entry whose offset is at most the logical offset, and keeps the previous bindings when there is none. *)
Theorem map_offset_loop_last_entry (mapping : list seg) (offset : Z)
    (bound : option (Z * Z * Z)) :
  ((forall s, In s mapping -> offset < seg_offset s) /\
   map_offset_loop mapping offset bound = bound) \/
  (exists pre s post, mapping = pre ++ s :: post /\ seg_offset s <= offset /\
     (forall s', In s' post -> offset < seg_offset s') /\
     map_offset_loop mapping offset bound =
       Some (seg_line s, seg_indent s, offset - seg_offset s)).
Proof. exact (map_offset_loop_cases mapping offset bound). Qed.

(** Every non-negative offset of a non-empty logical line maps back to a physical line, so [check_logical] never raises [UnboundLocalError] for it. *)
Theorem logical_offset_maps_back (lines : list str) (start end_ : Z * Z) (tokens : list token)
    (mapping : list seg) (logical : str) (offset : Z) (bound : option (Z * Z * Z)) :
  build_logical lines start end_ tokens = Some (mapping, logical) ->
  mapping <> [] -> 0 <= offset ->
  exists pre s post, mapping = pre ++ s :: post /\ seg_offset s <= offset /\
    (forall s', In s' post -> offset < seg_offset s') /\
    map_offset_loop mapping offset bound =
      Some (seg_line s, seg_indent s, offset - seg_offset s).
Proof.
  intros Hb Hne Ho.
  assert (I : builder_inv (mapping, logical)).
  { refine (build_loop_inv lines tokens _ ([], []) _ _ Hb).
    split; [constructor|]. split; [constructor|reflexivity]. }
  destruct I as (_ & _ & Hhd).
  destruct (map_offset_loop_cases mapping offset bound) as [[H1 _]|H]; [|exact H].
  destruct mapping as [|s m]; [contradiction|].
  specialize (H1 s (or_introl eq_refl)). rewrite Hhd in H1. lia.
Qed.

(** A concrete instance of [logical_offset_maps_back]. *)
Lemma logical_offset_maps_back_witness :
  build_logical continued_lines (1, 0) (2, 7) [] =
    Some ([(0, 1, 0); (8, 2, 5)], lit "x = (1, 2)") /\
  map_offset_loop [(0, 1, 0); (8, 2, 5)] 9 None = Some (2, 5, 1) /\
  exists pre s post, [(0, 1, 0); (8, 2, 5)] = pre ++ s :: post /\ seg_offset s <= 9 /\
    (forall s', In s' post -> 9 < seg_offset s') /\
    map_offset_loop [(0, 1, 0); (8, 2, 5)] 9 None =
      Some (seg_line s, seg_indent s, 9 - seg_offset s).
Proof.
  assert (H : build_logical continued_lines (1, 0) (2, 7) [] =
                Some ([(0, 1, 0); (8, 2, 5)], lit "x = (1, 2)")) by (vm_compute; reflexivity).
  split; [exact H|]. split; [reflexivity|].
  apply (logical_offset_maps_back continued_lines (1, 0) (2, 7) [] _ (lit "x = (1, 2)") 9 None H);
    [discriminate|lia].
Defined.
